(** * certdb: the EFI security-database engine of pesigcheck

    A shallow embedding of [src/certdb.c] and the properties of its
    loader ([add_db_file], [init_cert_db]), its signature-list walker and
    matcher ([check_db]) and its two predicates ([check_hash],
    [check_cert]).

    Conventions of the embedding.
    - A C object is a [list byte]; a pointer is an object together with a
      byte offset into it ([ptr]).  A read that leaves the object is the
      fault [OutOfBounds]: what C leaves undefined is made explicit.
    - Unsigned C arithmetic is [Z] with the wrap-around written out
      ([wrap32], [wrap64]); [PRTime] is a signed 64-bit count of
      microseconds and C's [/] truncates towards zero ([Z.quot]).
    - Effects are a writer-and-error monad [M]: the lines written to
      stdout and stderr, and an [outcome] that is a value, a fault, a call
      of [exit], or exhausted fuel for the one unbounded loop.
    - The operating system and the NSS library are oracles: records that
      give the result of each call the code makes. *)

From Stdlib Require Import String Ascii.
From Stdlib Require Import ZArith List Lia Bool.
From Stdlib Require Import Strings.Byte.
Import ListNotations.
Open Scope Z_scope.

(** ** Bytes, objects and pointers *)

Definition len (m : list byte) : Z := Z.of_nat (length m).

Definition byte_to_Z (b : byte) : Z := Z.of_N (Byte.to_N b).

Definition byte_of_Z (v : Z) : byte :=
  match Byte.of_N (Z.to_N (v mod 256)) with
  | Some b => b
  | None => x00
  end.

Record ptr := mkptr { obj : list byte; off : Z }.

(** Pointer arithmetic on [uint8_t *]. *)
Definition padd (p : ptr) (k : Z) : ptr := mkptr (obj p) (off p + k).

Definition slice (m : list byte) (o n : Z) : list byte :=
  firstn (Z.to_nat n) (skipn (Z.to_nat o) m).

(** Reading [n] bytes through a pointer; [None] when the read is not
    wholly inside the object. *)
Definition load_bytes (p : ptr) (n : Z) : option (list byte) :=
  if (0 <=? off p) && (0 <=? n) && (off p + n <=? len (obj p))
  then Some (slice (obj p) (off p) n)
  else None.

Definition wrap32 (v : Z) : Z := v mod 2 ^ 32.
Definition wrap64 (v : Z) : Z := v mod 2 ^ 64.

(** Little-endian encoding of a [uint32_t]. *)
Definition le32 (v : Z) : list byte :=
  [ byte_of_Z v; byte_of_Z (v / 2 ^ 8);
    byte_of_Z (v / 2 ^ 16); byte_of_Z (v / 2 ^ 24) ].

Definition decode_le32 (bs : list byte) : Z :=
  match bs with
  | [b0; b1; b2; b3] =>
      byte_to_Z b0 + 2 ^ 8 * byte_to_Z b1
      + 2 ^ 16 * byte_to_Z b2 + 2 ^ 24 * byte_to_Z b3
  | _ => 0
  end.

Definition load_u32 (p : ptr) : option Z :=
  option_map decode_le32 (load_bytes p 4).

(** Overwriting [length bs] bytes of [m] from offset [o] ([memcpy] into the
    object); [None] when the write leaves the object. *)
Definition store_bytes (m : list byte) (o : Z) (bs : list byte)
  : option (list byte) :=
  if (0 <=? o) && (o + len bs <=? len m)
  then Some (firstn (Z.to_nat o) m ++ bs
             ++ skipn (Z.to_nat o + length bs) m)
  else None.

(** ** Outcomes and output *)

Inductive fault := DivisionByZero | OutOfBounds | NullPointer.

Inductive outcome (A : Type) :=
| Ok (a : A)
| Fault (f : fault)
| Exit (code : Z)
| OutOfFuel.
Arguments Ok {A} a.
Arguments Fault {A} f.
Arguments Exit {A} code.
Arguments OutOfFuel {A}.

Inductive db_specifier := DB | DBX.
Inductive db_f_type := DB_FILE | DB_EFIVAR | DB_CERT.
Inductive db_status := FOUND | NOT_FOUND.

(** The lines the code writes, with the arguments of their format. *)
Inductive message :=
| Searching (which : db_specifier) (path : string)
| ImpossibleTimeConstraint (early late : Z)
| UnableToCreateCert
| UnableToDecodeTrustString
| FailedToChangeCertTrust
| VerifyError
| CouldNotAddKeyDatabase (path : string)
| CouldNotAddRevocationDatabase (path : string)
| NoKeyDatabase
| NoRevocationDatabase.

Inductive line := Stdout (m : message) | Stderr (m : message).

Definition M (A : Type) : Type := list line * outcome A.

Definition ret {A} (a : A) : M A := ([], Ok a).
Definition raise {A} (f : fault) : M A := ([], Fault f).
Definition exit {A} (code : Z) : M A := ([], Exit code).
Definition out_of_fuel {A} : M A := ([], OutOfFuel).
Definition say (l : line) : M unit := ([l], Ok tt).

Definition bind {A B} (m : M A) (k : A -> M B) : M B :=
  match m with
  | (o1, Ok a) => let (o2, r) := k a in (o1 ++ o2, r)
  | (o1, Fault f) => (o1, Fault f)
  | (o1, Exit c) => (o1, Exit c)
  | (o1, OutOfFuel) => (o1, OutOfFuel)
  end.

Notation "x <- m ;; k" := (bind m (fun x => k))
  (at level 61, m at next level, right associativity).
Notation "m ;;; k" := (bind m (fun _ => k))
  (at level 61, right associativity).

(** A read that must succeed: the fault of the embedding otherwise. *)
Definition must {A} (o : option A) : M A :=
  match o with
  | Some a => ret a
  | None => raise OutOfBounds
  end.

Definition output {A} (m : M A) : list line := fst m.
Definition result {A} (m : M A) : outcome A := snd m.

(** ** The data model *)

(** Modelled from the spec: the layout of a signature-list group header and
    of a signature entry, whose declarations ([EFI_SIGNATURE_LIST],
    [EFI_SIGNATURE_DATA], [efi_guid_t]) are in headers outside
    [src/certdb.c].  A header is a 128-bit type tag followed by the total
    size of the group, the header-skip length and the entry size, three
    little-endian [uint32_t]; an entry is a 128-bit owner identifier
    followed by its payload. *)
Definition sizeof_efi_guid_t : Z := 16.
Definition sizeof_EFI_SIGNATURE_LIST : Z := 28.
Definition offsetof_SignatureType : Z := 0.
Definition offsetof_SignatureListSize : Z := 16.
Definition offsetof_SignatureHeaderSize : Z := 20.
Definition offsetof_SignatureSize : Z := 24.
Definition offsetof_SignatureData : Z := 16.

(** The type tags of the UEFI specification ([EFI_CERT_SHA256_GUID],
    [EFI_CERT_SHA1_GUID], [EFI_CERT_X509_GUID]) in their stored byte
    order; the code takes them from the efivar library. *)
Definition efi_guid_sha256 : list byte :=
  [x26; x16; xc4; xc1; x4c; x50; x92; x40;
   xac; xa9; x41; xf9; x36; x93; x43; x28].
Definition efi_guid_sha1 : list byte :=
  [x12; xa5; x6c; x82; x10; xcf; xc9; x4a;
   xb1; x87; xbe; x01; x49; x66; x31; xbd].
Definition efi_guid_x509_cert : list byte :=
  [xa1; x59; xc0; xa5; xe4; x94; xa7; x4a;
   x87; xb5; xab; x15; x5c; x2b; xf0; x72].

(** [SECItem]: a pointer and a length ([unsigned int]). *)
Record SECItem := mkSECItem { data : ptr; len_ : Z }.

(** One loaded source.  The [next] link of the C struct is the tail of the
    list that holds the record. *)
Record dblist := mkdblist {
  db_type : db_f_type;
  db_fd : Z;
  db_path : string;
  db_map : list byte;
  db_size : Z;
  db_data : ptr;
  db_datalen : Z
}.

(** The part of [pesigcheck_context] this file uses: the two chains and
    the two digests of the artifact, [cms_ctx->digests[0].pe_digest->data]
    (SHA-256) and [cms_ctx->digests[1].pe_digest->data] (SHA-1). *)
Record pesigcheck_context := mkctx {
  db : list dblist;
  dbx : list dblist;
  pe_digest0 : ptr;
  pe_digest1 : ptr
}.

Definition chain (which : db_specifier) (ctx : pesigcheck_context)
  : list dblist :=
  match which with DB => db ctx | DBX => dbx ctx end.

Definition set_chain (which : db_specifier) (c : list dblist)
  (ctx : pesigcheck_context) : pesigcheck_context :=
  match which with
  | DB => mkctx c (dbx ctx) (pe_digest0 ctx) (pe_digest1 ctx)
  | DBX => mkctx (db ctx) c (pe_digest0 ctx) (pe_digest1 ctx)
  end.

(** ** The matcher: [check_db] *)

Definition checkfn : Type :=
  pesigcheck_context -> SECItem -> ptr -> SECItem -> M db_status.

(** The [for] loop over the entries of one group: [n] iterations are left,
    [cert] points at the current entry.  [Some sig] is the early
    [return FOUND]. *)
Fixpoint check_entries (check : checkfn) (ctx : pesigcheck_context)
  (pkcs7sig : SECItem) (certlist : ptr) (SignatureSize : Z)
  (n : nat) (cert : ptr) : M (option SECItem) :=
  match n with
  | O => ret None
  | S n' =>
      let sig := mkSECItem (padd cert offsetof_SignatureData)
                   (wrap32 (SignatureSize - sizeof_efi_guid_t)) in
      found <- check ctx sig (padd certlist offsetof_SignatureType)
                 pkcs7sig ;;
      match found with
      | FOUND => ret (Some sig)
      | NOT_FOUND =>
          check_entries check ctx pkcs7sig certlist SignatureSize n'
            (padd cert SignatureSize)
      end
  end.

(** The [while] loop over the groups of one source.  [dbsize] is a
    [size_t]; [dbsize -= SignatureListSize] runs under the guard
    [dbsize >= SignatureListSize] and does not wrap. *)
Fixpoint check_lists (fuel : nat) (check : checkfn)
  (ctx : pesigcheck_context) (pkcs7sig : SECItem)
  (dbsize : Z) (certlist : ptr) : M (option SECItem) :=
  match fuel with
  | O => out_of_fuel
  | S fuel' =>
      if 0 <? dbsize then
        SignatureListSize <-
          must (load_u32 (padd certlist offsetof_SignatureListSize)) ;;
        if SignatureListSize <=? dbsize then
          SignatureHeaderSize <-
            must (load_u32 (padd certlist offsetof_SignatureHeaderSize)) ;;
          SignatureSize <-
            must (load_u32 (padd certlist offsetof_SignatureSize)) ;;
          if SignatureSize =? 0 then raise DivisionByZero else
          let certcount :=
            wrap32 (SignatureListSize - SignatureHeaderSize)
            / SignatureSize in
          let cert :=
            padd certlist
              (sizeof_EFI_SIGNATURE_LIST + SignatureHeaderSize) in
          r <- check_entries check ctx pkcs7sig certlist SignatureSize
                 (Z.to_nat certcount) cert ;;
          match r with
          | Some sig => ret (Some sig)
          | None =>
              check_lists fuel' check ctx pkcs7sig
                (dbsize - SignatureListSize)
                (padd certlist SignatureListSize)
          end
        else ret None
      else ret None
  end.

(** The [while (dbl)] loop over the chain. *)
Fixpoint check_chain (fuel : nat) (which : db_specifier) (check : checkfn)
  (ctx : pesigcheck_context) (pkcs7sig : SECItem) (dbl : list dblist)
  : M (option SECItem) :=
  match dbl with
  | [] => ret None
  | d :: next =>
      say (Stdout (Searching which (db_path d))) ;;;
      r <- check_lists fuel check ctx pkcs7sig (db_datalen d) (db_data d) ;;
      match r with
      | Some sig => ret (Some sig)
      | None => check_chain fuel which check ctx pkcs7sig next
      end
  end.

(** [check_db].  [match_] is the caller's [SECItem *match]: [None] for a
    null pointer, else what it points to; the second component of the
    result is what it points to afterwards. *)
Definition check_db (fuel : nat) (which : db_specifier)
  (ctx : pesigcheck_context) (check : checkfn)
  (data_ : ptr) (datalen : Z) (match_ : option SECItem)
  : M (db_status * option SECItem) :=
  let pkcs7sig := mkSECItem data_ (wrap32 datalen) in
  r <- check_chain fuel which check ctx pkcs7sig (chain which ctx) ;;
  match r with
  | Some sig =>
      ret (FOUND, match match_ with Some _ => Some sig | None => None end)
  | None => ret (NOT_FOUND, match_)
  end.

(** ** The hash predicate: [check_hash] *)

Definition bytes_eqb (a b : list byte) : bool :=
  if list_eq_dec Byte.byte_eq_dec a b then true else false.

(** [memcmp (p, q, n) == 0]. *)
Definition memcmp_eq (p q : ptr) (n : Z) : M bool :=
  a <- must (load_bytes p n) ;;
  b <- must (load_bytes q n) ;;
  ret (bytes_eqb a b).

Definition check_hash : checkfn := fun ctx sig sigtype pkcs7sig =>
  is_sha256 <- memcmp_eq sigtype (mkptr efi_guid_sha256 0)
                 sizeof_efi_guid_t ;;
  if is_sha256 then
    same <- memcmp_eq (pe_digest0 ctx) (data sig) 32 ;;
    if same then ret FOUND else ret NOT_FOUND
  else
    is_sha1 <- memcmp_eq sigtype (mkptr efi_guid_sha1 0)
                 sizeof_efi_guid_t ;;
    if is_sha1 then
      same <- memcmp_eq (pe_digest1 ctx) (data sig) 20 ;;
      if same then ret FOUND else ret NOT_FOUND
    else ret NOT_FOUND.

Definition null_ptr : ptr := mkptr [] 0.

Definition check_db_hash (fuel : nat) (which : db_specifier)
  (ctx : pesigcheck_context) : M db_status :=
  r <- check_db fuel which ctx check_hash null_ptr 0 None ;;
  ret (fst r).

(** ** The certificate predicate: [find_cert_times] and [check_cert] *)

Definition PRTime : Type := Z.
Definition PRTime_MAX : PRTime := 0x7fffffffffffffff.

(** An imported certificate: [CERT_GetCertTimes] is given the current
    values of its two out-parameters and leaves their new values (a call
    that fails may leave them as they were). *)
Record CERTCertificate := mkCert {
  CERT_GetCertTimes : PRTime * PRTime -> PRTime * PRTime
}.

(** A certificate whose validity period [nb, na] NSS decodes. *)
Definition valid_between (nb na : PRTime) : CERTCertificate :=
  mkCert (fun _ => (nb, na)).

(** A decoded signed-data message, as far as the code looks into it. *)
Record SEC_PKCS7ContentInfo := mkCinfo {
  (* contentTypeTag->offset == SEC_OID_PKCS7_SIGNED_DATA *)
  is_signed_data : bool;
  (* content.signedData->rawCerts: NULL, or a NULL-terminated array *)
  rawCerts : option (list (list byte));
  (* SEC_PKCS7GetSigningTime: NULL, or an item that
     DER_DecodeTimeChoice decodes ([Some]) or rejects ([None]) *)
  signing_time : option (option PRTime);
  (* content.signedData->contentInfo.content.data, NULL when absent *)
  signed_content : option SECItem
}.

(** The NSS library: the result of each call [check_cert] and
    [find_cert_times] make. *)
Record NSS := mkNSS {
  decode_first : SECItem -> option SEC_PKCS7ContentInfo;
  decode_second : SECItem -> option SEC_PKCS7ContentInfo;
  CERT_GetDefaultCertDB : bool;
  CERT_ImportCerts : option (list (list byte))
                     -> option (list CERTCertificate);
  SECITEM_AllocItem : bool;
  SECOID_FindOIDByTag : bool;
  PK11_CreateDigestContext : bool;
  PK11_DigestBegin : bool;
  PK11_DigestOp : ptr -> Z -> bool;
  PK11_DigestFinal : option (list byte);
  CERT_NewTempCertificate : SECItem -> bool;
  CERT_DecodeTrustString : bool;
  CERT_ChangeCertTrust : bool;
  SEC_PKCS7VerifyDetachedSignatureAtTime :
    SEC_PKCS7ContentInfo -> list byte -> PRTime -> bool
}.

(** The body of the [for] loop of [find_cert_times]. *)
Definition fold_cert_times (w : PRTime * PRTime) (c : CERTCertificate)
  : PRTime * PRTime :=
  let '(notBefore, notAfter) := w in
  let '(nb, na) := CERT_GetCertTimes c (0, 0x7fffffffffff) in
  (if notBefore <? nb then nb else notBefore,
   if na <? notAfter then na else notAfter).

(** [find_cert_times]: the new values of [*notBefore] and [*notAfter]. *)
Definition find_cert_times (nss : NSS) (cinfo : SEC_PKCS7ContentInfo)
  (notBefore notAfter : PRTime) : PRTime * PRTime :=
  let err := (0, PRTime_MAX) in
  if negb (is_signed_data cinfo) then err else
  if negb (CERT_GetDefaultCertDB nss) then err else
  let certcount :=
    match rawCerts cinfo with Some l => length l | None => O end in
  match CERT_ImportCerts nss (rawCerts cinfo) with
  | None => err
  | Some certs =>
      fold_left fold_cert_times (firstn certcount certs)
        (notBefore, notAfter)
  end.

(** Lines 351 to 381 of [check_cert]: the values of [earlyNow] and
    [lateNow] when the window is tested. *)
Definition signing_window (nss : NSS) (cinfo : SEC_PKCS7ContentInfo)
  : PRTime * PRTime :=
  let earlyNow := 0 in
  let lateNow := PRTime_MAX in
  let '(notBefore, notAfter) :=
    find_cert_times nss cinfo earlyNow lateNow in
  let earlyNow := if earlyNow <? notBefore then notBefore else earlyNow in
  let lateNow := if notAfter <? lateNow then notAfter else lateNow in
  match signing_time cinfo with
  | Some (Some atTime) =>
      (if earlyNow <? atTime then atTime else earlyNow,
       if atTime <? lateNow then atTime else lateNow)
  | _ => (earlyNow, lateNow)
  end.

(** Line 386: [atTime = earlyNow / 2 + lateNow / 2]. *)
Definition evaluation_time (w : PRTime * PRTime) : PRTime :=
  Z.quot (fst w) 2 + Z.quot (snd w) 2.

(** A PK11 call on the digest context; NSS dereferences the context, so
    a null one is a fault. *)
Definition with_context {A} (pk11ctx : bool) (r : A) : M A :=
  if pk11ctx then ret r else raise NullPointer.

Definition check_cert (nss : NSS) : checkfn :=
  fun ctx sig sigtype pkcs7sig =>
  is_x509 <- memcmp_eq sigtype (mkptr efi_guid_x509_cert 0)
               sizeof_efi_guid_t ;;
  if negb is_x509 then ret NOT_FOUND else
  match decode_first nss pkcs7sig with
  | None => ret NOT_FOUND
  | Some cinfo =>
  let w := signing_window nss cinfo in
  (if snd w <? fst w
   then say (Stdout (ImpossibleTimeConstraint
                       (Z.quot (fst w) 1000000) (Z.quot (snd w) 1000000)))
   else ret tt) ;;;
  let atTime := evaluation_time w in
  match decode_second nss pkcs7sig with
  | None => ret NOT_FOUND
  | Some cinfo =>
  if negb (SECITEM_AllocItem nss) then ret NOT_FOUND else
  if negb (SECOID_FindOIDByTag nss) then ret NOT_FOUND else
  let pk11ctx := PK11_CreateDigestContext nss in
  (* [if (ctx == NULL) goto out;] tests the pesigcheck context, which is
     never null here, not [pk11ctx] *)
  began <- with_context pk11ctx (PK11_DigestBegin nss) ;;
  if negb began then ret NOT_FOUND else
  match signed_content cinfo with
  | None => raise NullPointer
  | Some content =>
  fed <- with_context pk11ctx
           (PK11_DigestOp nss (padd (data content) 2)
              (wrap32 (len_ content - 2))) ;;
  if negb fed then ret NOT_FOUND else
  final <- with_context pk11ctx (PK11_DigestFinal nss) ;;
  match final with
  | None => ret NOT_FOUND
  | Some digest =>
  if negb (CERT_NewTempCertificate nss sig)
  then say (Stderr UnableToCreateCert) ;;; ret NOT_FOUND else
  if negb (CERT_DecodeTrustString nss)
  then say (Stderr UnableToDecodeTrustString) ;;; ret NOT_FOUND else
  if negb (CERT_ChangeCertTrust nss)
  then say (Stderr FailedToChangeCertTrust) ;;; ret NOT_FOUND else
  if negb (SEC_PKCS7VerifyDetachedSignatureAtTime nss cinfo digest atTime)
  then say (Stderr VerifyError) ;;; ret NOT_FOUND else
  ret FOUND
  end end end end.

Definition check_db_cert (nss : NSS) (fuel : nat) (which : db_specifier)
  (ctx : pesigcheck_context) (data_ : ptr) (datalen : Z)
  (match_ : option SECItem) : M (db_status * option SECItem) :=
  check_db fuel which ctx (check_cert nss) data_ datalen match_.

(** ** The loader: [add_db_file] and [init_cert_db] *)

(** The result of a system or C library call: a value, or a failure that
    leaves its error number in [errno]. *)
Inductive sys (A : Type) :=
| Done (a : A)
| Failed (errno : Z).
Arguments Done {A} a.
Arguments Failed {A} errno.

Definition ENOENT : Z := 2.

(** What the calls [add_db_file] makes for one path return, in the order
    of the calls. *)
Record os_calls := mkos {
  calloc_dblist : sys unit;
  open_ : sys Z;                       (* the file descriptor *)
  strdup_dbfile : sys unit;
  basename_ : string;                  (* basename(path) *)
  strdup_basename : sys unit;
  fstat_ : sys Z;                      (* sb.st_size *)
  mmap_ : sys (list byte);             (* MAP_FAILED is [Failed] *)
  read_file_ : sys (list byte);        (* the buffer left in db->map *)
  calloc_data : sys unit
}.

(** The last lines of [add_db_file]: the new source becomes the head of
    the chosen chain and the call returns 0 with [errno] reset. *)
Definition link_source (ctx : pesigcheck_context) (which : db_specifier)
  (d : dblist) : M (Z * Z * pesigcheck_context) :=
  ret (0, 0, set_chain which (d :: chain which ctx) ctx).

(** [add_db_file]: the return value, [errno] on return (the errno guard of
    the code keeps the failing call's error number across the clean-up
    calls), and the context afterwards.  The list that [mmap_] or
    [read_file_] gives is the whole object behind [db->map]; [db->size]
    is [st_size] in both cases, and the properties below that read
    through [db->map] are stated for an object of [st_size] bytes. *)
Definition add_db_file (os : os_calls) (ctx : pesigcheck_context)
  (which : db_specifier) (dbfile : string) (type : db_f_type)
  : M (Z * Z * pesigcheck_context) :=
  match calloc_dblist os with
  | Failed e => ret (-1, e, ctx)
  | Done _ =>
  match open_ os with
  | Failed e => ret (-1, e, ctx)
  | Done fd =>
  match strdup_dbfile os with
  | Failed e => ret (-1, e, ctx)
  | Done _ =>
  let path := basename_ os in
  match strdup_basename os with
  | Failed e => ret (-1, e, ctx)
  | Done _ =>
  match fstat_ os with
  | Failed e => ret (-1, e, ctx)
  | Done st_size =>
  let size := wrap64 st_size in
  match
    match mmap_ os with
    | Done m => Done m
    | Failed _ => read_file_ os
    end
  with
  | Failed e => ret (-1, e, ctx)
  | Done map =>
  match type with
  | DB_FILE =>
      link_source ctx which
        (mkdblist type fd path map size (mkptr map 0) size)
  | DB_EFIVAR =>
      (* skip the first 4 bytes (EFI attributes) *)
      link_source ctx which
        (mkdblist type fd path map size (mkptr map 4) (wrap64 (size - 4)))
  | DB_CERT =>
      let datalen :=
        wrap64 (size + sizeof_EFI_SIGNATURE_LIST + sizeof_efi_guid_t) in
      match calloc_data os with
      | Failed e => ret (-1, e, ctx)
      | Done _ =>
          let d := repeat x00 (Z.to_nat datalen) in
          d <- must (store_bytes d offsetof_SignatureType
                       efi_guid_x509_cert) ;;
          d <- must (store_bytes d offsetof_SignatureListSize
                       (le32 datalen)) ;;
          d <- must (store_bytes d offsetof_SignatureHeaderSize
                       (le32 0)) ;;
          d <- must (store_bytes d offsetof_SignatureSize
                       (le32 (size + sizeof_efi_guid_t))) ;;
          src <- must (load_bytes (mkptr map 0) size) ;;
          d <- must (store_bytes d
                       (sizeof_EFI_SIGNATURE_LIST + offsetof_SignatureData)
                       src) ;;
          link_source ctx which
            (mkdblist type fd path map size (mkptr d 0) datalen)
      end
  end end end end end end end.

Definition add_cert_db os ctx filename :=
  add_db_file os ctx DB filename DB_FILE.
Definition add_cert_dbx os ctx filename :=
  add_db_file os ctx DBX filename DB_FILE.
Definition add_cert_file os ctx filename :=
  add_db_file os ctx DB filename DB_CERT.

Definition DB_PATH : string :=
  "/sys/firmware/efi/efivars/db-d719b2cb-3d3a-4596-a3bc-dad00e67656f".
Definition MOK_PATH : string :=
  "/sys/firmware/efi/efivars/MokListRT-605dab50-e046-4300-abb6-3dd810dd8b23".
Definition DBX_PATH : string :=
  "/sys/firmware/efi/efivars/dbx-d719b2cb-3d3a-4596-a3bc-dad00e67656f".
Definition MOKX_PATH : string :=
  "/sys/firmware/efi/efivars/MokListXRT-605dab50-e046-4300-abb6-3dd810dd8b23".

(** One of the four loads of [init_cert_db]: [exit (1)] with the given
    diagnostic when the load fails with an [errno] other than [ENOENT]. *)
Definition load_or_exit (world : string -> os_calls)
  (ctx : pesigcheck_context) (which : db_specifier) (path : string)
  (diagnostic : string -> message) : M pesigcheck_context :=
  r <- add_db_file (world path) ctx which path DB_EFIVAR ;;
  let '(rc, errno, ctx) := r in
  if (rc <? 0) && negb (errno =? ENOENT)
  then say (Stderr (diagnostic path)) ;;; exit 1
  else ret ctx.

Definition init_cert_db (world : string -> os_calls)
  (ctx : pesigcheck_context) (use_system_dbs : Z)
  : M pesigcheck_context :=
  if use_system_dbs =? 0 then ret ctx else
  ctx <- load_or_exit world ctx DB DB_PATH CouldNotAddKeyDatabase ;;
  ctx <- load_or_exit world ctx DB MOK_PATH CouldNotAddKeyDatabase ;;
  (match db ctx with
   | [] => say (Stderr NoKeyDatabase)
   | _ => ret tt
   end) ;;;
  ctx <- load_or_exit world ctx DBX DBX_PATH
           CouldNotAddRevocationDatabase ;;
  ctx <- load_or_exit world ctx DBX MOKX_PATH CouldNotAddKeyDatabase ;;
  (match dbx ctx with
   | [] => say (Stderr NoRevocationDatabase)
   | _ => ret tt
   end) ;;;
  ret ctx.

(** ** Well-formed regions and the entries they hold *)

(** A group as its header declares it: where the header is, the total
    size, the header-skip length and the entry size. *)
Record group := mkgroup {
  g_header : ptr;
  g_total : Z;
  g_skip : Z;
  g_entry : Z
}.

Definition header_at (certlist : ptr) (g : group) : Prop :=
  g_header g = certlist /\
  load_u32 (padd certlist offsetof_SignatureListSize) = Some (g_total g) /\
  load_u32 (padd certlist offsetof_SignatureHeaderSize) = Some (g_skip g) /\
  load_u32 (padd certlist offsetof_SignatureSize) = Some (g_entry g).

(** [well_formed dbsize certlist gs]: the [dbsize] bytes from [certlist]
    on are the groups [gs] one after the other, each with a positive entry
    size and a header-skip below its total size, followed by nothing or by
    a header that declares more bytes than are left. *)
Inductive well_formed : Z -> ptr -> list group -> Prop :=
| wf_end dbsize certlist :
    dbsize <= 0 ->
    well_formed dbsize certlist []
| wf_truncated dbsize certlist total :
    0 < dbsize ->
    load_u32 (padd certlist offsetof_SignatureListSize) = Some total ->
    dbsize < total ->
    well_formed dbsize certlist []
| wf_group dbsize certlist g gs :
    0 < dbsize ->
    header_at certlist g ->
    g_total g <= dbsize ->
    0 < g_entry g ->
    g_skip g < g_total g ->
    well_formed (dbsize - g_total g) (padd certlist (g_total g)) gs ->
    well_formed dbsize certlist (g :: gs).

(** An entry as the predicate receives it: the pointer to the type tag of
    its group, and the payload as a pointer and a length. *)
Definition entry : Type := ptr * SECItem.

Definition entry_count (g : group) : Z :=
  (g_total g - g_skip g) / g_entry g.

Definition nth_entry (g : group) (i : nat) : entry :=
  (padd (g_header g) offsetof_SignatureType,
   mkSECItem
     (padd (g_header g)
        (sizeof_EFI_SIGNATURE_LIST + g_skip g + Z.of_nat i * g_entry g
         + offsetof_SignatureData))
     (wrap32 (g_entry g - sizeof_efi_guid_t))).

Definition group_entries (g : group) : list entry :=
  map (nth_entry g) (seq 0 (Z.to_nat (entry_count g))).

Definition entries (gs : list group) : list entry :=
  flat_map group_entries gs.

Definition consumed (gs : list group) : Z :=
  fold_right (fun g acc => g_total g + acc) 0 gs.

(** What the predicate answers on an entry, its output apart. *)
Definition answer (check : checkfn) (ctx : pesigcheck_context)
  (pkcs7sig : SECItem) (e : entry) : outcome db_status :=
  result (check ctx (snd e) (fst e) pkcs7sig).

(** The predicate applied to a list of entries in order, up to the first
    one it reports as found. *)
Fixpoint first_match (check : checkfn) (ctx : pesigcheck_context)
  (pkcs7sig : SECItem) (es : list entry) : M (option SECItem) :=
  match es with
  | [] => ret None
  | e :: es' =>
      found <- check ctx (snd e) (fst e) pkcs7sig ;;
      match found with
      | FOUND => ret (Some (snd e))
      | NOT_FOUND => first_match check ctx pkcs7sig es'
      end
  end.

(** The groups lie one after the other: each header is where the group
    before it ends by its declared total size. *)
Fixpoint laid_out (certlist : ptr) (gs : list group) : Prop :=
  match gs with
  | [] => True
  | g :: gs' =>
      g_header g = certlist /\ laid_out (padd certlist (g_total g)) gs'
  end.

(** A chain whose sources are well formed, with the groups of each. *)
Definition well_formed_chain (c : list dblist) (gss : list (list group))
  : Prop :=
  Forall2 (fun d gs => well_formed (db_datalen d) (db_data d) gs) c gss.

(** ** Reaching the verifier *)

(** The message as it is without its signing-time attribute. *)
Definition without_signing_time (cinfo : SEC_PKCS7ContentInfo)
  : SEC_PKCS7ContentInfo :=
  mkCinfo (is_signed_data cinfo) (rawCerts cinfo) None
    (signed_content cinfo).


(** Every step of [check_cert] before the verification succeeds: the
    entry is tagged X.509, the blob decodes twice (to [cinfo], then to
    [cinfo2] with content [content]), the digest is computed as [digest],
    and the candidate becomes a trusted temporary certificate. *)
Definition reaches_verifier (nss : NSS) (sig : SECItem) (sigtype : ptr)
  (pkcs7sig : SECItem) (cinfo cinfo2 : SEC_PKCS7ContentInfo)
  (content : SECItem) (digest : list byte) : Prop :=
  load_bytes sigtype sizeof_efi_guid_t = Some efi_guid_x509_cert /\
  decode_first nss pkcs7sig = Some cinfo /\
  decode_second nss pkcs7sig = Some cinfo2 /\
  SECITEM_AllocItem nss = true /\
  SECOID_FindOIDByTag nss = true /\
  PK11_CreateDigestContext nss = true /\
  PK11_DigestBegin nss = true /\
  signed_content cinfo2 = Some content /\
  PK11_DigestOp nss (padd (data content) 2) (wrap32 (len_ content - 2))
  = true /\
  PK11_DigestFinal nss = Some digest /\
  CERT_NewTempCertificate nss sig = true /\
  CERT_DecodeTrustString nss = true /\
  CERT_ChangeCertTrust nss = true.

(** What [check_cert] prints about the window before it goes on. *)
Definition window_report (w : PRTime * PRTime) : list line :=
  if snd w <? fst w
  then [Stdout (ImpossibleTimeConstraint
                  (Z.quot (fst w) 1000000) (Z.quot (snd w) 1000000))]
  else [].

(** ** A certificate wrapped as a one-entry signature list *)

(** The list a bare certificate stands for: one group tagged X.509, with
    no header-skip, whose one entry has an owner of zeros and the
    certificate as its payload. *)
Definition wrapped_certificate (cert : list byte) : list byte :=
  efi_guid_x509_cert
  ++ le32 (len cert + sizeof_EFI_SIGNATURE_LIST + sizeof_efi_guid_t)
  ++ le32 0
  ++ le32 (len cert + sizeof_efi_guid_t)
  ++ repeat x00 16 ++ cert.

Definition wrapped_group (cert : list byte) : group :=
  mkgroup (mkptr (wrapped_certificate cert) 0)
    (len cert + sizeof_EFI_SIGNATURE_LIST + sizeof_efi_guid_t) 0
    (len cert + sizeof_efi_guid_t).

Definition wrapped_entry (cert : list byte) : entry :=
  (mkptr (wrapped_certificate cert) 0,
   mkSECItem
     (mkptr (wrapped_certificate cert)
        (sizeof_EFI_SIGNATURE_LIST + offsetof_SignatureData))
     (len cert)).

(** ** The calls of one load *)

Definition failed {A} (r : sys A) : Prop :=
  match r with Failed _ => True | Done _ => False end.

(** One of the fallible steps of [add_db_file] fails: an allocation, the
    open, a duplication of the path, the stat, the read that stands in
    for a failed mapping, or the allocation of the synthesized region. *)
Definition some_call_fails (os : os_calls) (type : db_f_type) : Prop :=
  failed (calloc_dblist os) \/ failed (open_ os) \/
  failed (strdup_dbfile os) \/ failed (strdup_basename os) \/
  failed (fstat_ os) \/
  (failed (mmap_ os) /\ failed (read_file_ os)) \/
  (type = DB_CERT /\ failed (calloc_data os)).

(** Every call up to the buffer succeeds: the file opens as [fd], has
    size [size], and is mapped, or else read, as [map]. *)
Definition loads (os : os_calls) (fd size : Z) (map : list byte) : Prop :=
  calloc_dblist os = Done tt /\
  open_ os = Done fd /\
  strdup_dbfile os = Done tt /\
  strdup_basename os = Done tt /\
  fstat_ os = Done size /\
  (mmap_ os = Done map \/ (failed (mmap_ os) /\ read_file_ os = Done map)).

(** ** One load of the bootstrap *)

(** The three ways a load of [init_cert_db] can go: the source is loaded
    at the head of its chain, it is missing and the context stays as it
    was, or the load fails otherwise ([None]). *)
Inductive attempt (world : string -> os_calls) (ctx : pesigcheck_context)
  (which : db_specifier) (path : string)
  : option pesigcheck_context -> Prop :=
| attempt_loaded d :
    db_type d = DB_EFIVAR ->
    add_db_file (world path) ctx which path DB_EFIVAR
    = ret (0, 0, set_chain which (d :: chain which ctx) ctx) ->
    attempt world ctx which path
      (Some (set_chain which (d :: chain which ctx) ctx))
| attempt_missing :
    add_db_file (world path) ctx which path DB_EFIVAR
    = ret (-1, ENOENT, ctx) ->
    attempt world ctx which path (Some ctx)
| attempt_fatal e :
    e <> ENOENT ->
    add_db_file (world path) ctx which path DB_EFIVAR = ret (-1, e, ctx) ->
    attempt world ctx which path None.

Definition warn_no_db (ctx : pesigcheck_context) : list line :=
  match db ctx with [] => [Stderr NoKeyDatabase] | _ => [] end.

Definition warn_no_dbx (ctx : pesigcheck_context) : list line :=
  match dbx ctx with [] => [Stderr NoRevocationDatabase] | _ => [] end.

(** ** The walk as a sequence of headers *)

Definition other_chain (which : db_specifier) : db_specifier :=
  match which with DB => DBX | DBX => DB end.

(** [walk_reaches dbsize certlist d p]: starting with [dbsize] bytes left
    at [certlist], the [while] loop of [check_db] can come to test its
    condition with [d] bytes left at [p], each header on the way having
    passed the test on its total size. *)
Inductive walk_reaches : Z -> ptr -> Z -> ptr -> Prop :=
| reach_here dbsize certlist :
    walk_reaches dbsize certlist dbsize certlist
| reach_next dbsize certlist total d p :
    0 < dbsize ->
    load_u32 (padd certlist offsetof_SignatureListSize) = Some total ->
    total <= dbsize ->
    walk_reaches (dbsize - total) (padd certlist total) d p ->
    walk_reaches dbsize certlist d p.

(** A predicate that rejects whatever it is given, and one that writes
    nothing. *)
Definition rejects_all (check : checkfn) (ctx : pesigcheck_context)
  (pk : SECItem) : Prop :=
  forall sig sigtype, result (check ctx sig sigtype pk) = Ok NOT_FOUND.

Definition silent (check : checkfn) (ctx : pesigcheck_context)
  (pk : SECItem) : Prop :=
  forall sig sigtype, output (check ctx sig sigtype pk) = [].

(** The lines [check_db] prints for the sources of a chain. *)
Definition searching_lines (which : db_specifier) (c : list dblist)
  : list line :=
  map (fun d => Stdout (Searching which (db_path d))) c.

Definition on_stderr (l : line) : bool :=
  match l with Stderr _ => true | Stdout _ => false end.

(** ** Times *)

Definition PRTime_MIN : PRTime := - 2 ^ 63.

(** What [find_cert_times] gives [CERT_GetCertTimes] to fill in. *)
Definition cert_times_default : PRTime * PRTime := (0, 0x7fffffffffff).

(** A certificate whose times NSS cannot read: the call leaves its two
    out-parameters as they were. *)
Definition unreadable_times : CERTCertificate := mkCert (fun w => w).

(** ** A list of one SHA-256 entry *)

(** A signature list that holds one SHA-256 entry: the header of a group
    of 76 bytes with entries of 48, the owner, and the hash. *)
Definition sha256_list (owner hash : list byte) : list byte :=
  efi_guid_sha256 ++ le32 76 ++ le32 0 ++ le32 48 ++ owner ++ hash.

Definition sha256_group (owner hash : list byte) : group :=
  mkgroup (mkptr (sha256_list owner hash) 0) 76 0 48.

(** ** Concrete inputs *)

Definition header_bytes (tag : list byte) (total skip entry : Z)
  : list byte :=
  tag ++ le32 total ++ le32 skip ++ le32 entry.

Definition zeros (n : nat) : list byte := repeat x00 n.

(** The digests of an artifact under evaluation. *)
Definition artifact_sha256 : list byte := repeat xab 32.
Definition artifact_sha1 : list byte := repeat xcd 20.

(** A plain-file source whose whole buffer is the given region. *)
Definition source_of (name : string) (region : list byte) : dblist :=
  mkdblist DB_FILE 3 name region (len region) (mkptr region 0)
    (len region).

Definition context_of (allow deny : list dblist) : pesigcheck_context :=
  mkctx allow deny (mkptr artifact_sha256 0) (mkptr artifact_sha1 0).

(** Three malformed headers: entry size 0, total size 0, and a total size
    below the size of the header. *)
Definition zero_entry_size_region : list byte :=
  header_bytes efi_guid_sha256 28 0 0.
Definition zero_total_size_region : list byte :=
  header_bytes efi_guid_sha256 0 0 1.
Definition short_total_size_region : list byte :=
  header_bytes efi_guid_sha256 8 0 8 ++ zeros 8.

(** A header whose total size, 8, is below the size of the header, with a
    positive entry size, followed by eight bytes: the walk takes its next
    header at offset 8, inside the first one. *)
Definition overlapping_region : list byte :=
  header_bytes efi_guid_x509_cert 8 0 8 ++ le32 0 ++ le32 100.

(** A predicate that rejects every entry without reading it. *)
Definition never_found : checkfn := fun _ _ _ _ => ret NOT_FOUND.

(** A group of one SHA-256 entry (the digest of the artifact), a group of
    one SHA-1 entry (another digest), and twenty bytes of a header that
    declares 1000 bytes. *)
Definition two_group_region : list byte :=
  header_bytes efi_guid_sha256 76 0 48 ++ zeros 16 ++ artifact_sha256
  ++ header_bytes efi_guid_sha1 64 0 36 ++ zeros 16 ++ repeat x11 20
  ++ efi_guid_x509_cert ++ le32 1000.

Definition two_groups : list group :=
  [ mkgroup (mkptr two_group_region 0) 76 0 48;
    mkgroup (mkptr two_group_region 76) 64 0 36 ].

(** A signed-data message with [n] embedded certificates, a signing time
    as given, and some content. *)
Definition sample_cinfo (n : nat) (t : option (option PRTime))
  : SEC_PKCS7ContentInfo :=
  mkCinfo true (Some (repeat [x30] n)) t
    (Some (mkSECItem (mkptr [x30; x00] 0) 2)).

(** An NSS in which every call succeeds: the message decodes to [cinfo],
    its embedded certificates import as [certs], the digest context is
    created when [pk11] says so, and the verifier accepts the evaluation
    times [accept] selects. *)
Definition sample_nss (cinfo : SEC_PKCS7ContentInfo)
  (certs : list CERTCertificate) (pk11 : bool) (accept : PRTime -> bool)
  : NSS :=
  mkNSS (fun _ => Some cinfo) (fun _ => Some cinfo) true
    (fun _ => Some certs) true true pk11 true (fun _ _ => true)
    (Some (repeat x00 32)) (fun _ => true) true true
    (fun _ _ t => accept t).

(** A file that every call of the loader succeeds on. *)
Definition readable_file (name : string) (bytes : list byte) : os_calls :=
  mkos (Done tt) (Done 3) (Done tt) name (Done tt) (Done (len bytes))
    (Done bytes) (Done bytes) (Done tt).

(** A path that does not exist, and one that may not be read. *)
Definition missing_file : os_calls :=
  mkos (Done tt) (Failed ENOENT) (Done tt) "" (Done tt) (Done 0)
    (Done []) (Done []) (Done tt).
Definition EACCES : Z := 13.
Definition forbidden_file : os_calls :=
  mkos (Done tt) (Failed EACCES) (Done tt) "" (Done tt) (Done 0)
    (Done []) (Done []) (Done tt).

(** A bare certificate of twenty bytes, and one of twelve. *)
Definition sample_certificate : list byte := repeat x30 20.
Definition twelve_byte_file : list byte := repeat x30 12.

(** The text after the last slash: what [basename] returns for the paths
    of this file. *)
Fixpoint last_component (s acc : string) : string :=
  match s with
  | EmptyString => acc
  | String c s' =>
      if Ascii.eqb c "/"%char
      then last_component s' EmptyString
      else last_component s' (String.append acc (String c EmptyString))
  end.

(** The four firmware variables present, each with the two-group region
    after its four bytes of attributes; and none of them present. *)
Definition all_variables_present (path : string) : os_calls :=
  readable_file (last_component path EmptyString)
    ([x07; x00; x00; x00] ++ two_group_region).
Definition no_variable_present (path : string) : os_calls := missing_file.

(** * Properties *)

(** ** The monad *)

Lemma bind_ret_l {A B} (a : A) (k : A -> M B) : bind (ret a) k = k a.
Proof. unfold bind, ret. destruct (k a); reflexivity. Qed.

Lemma bind_ret_r {A} (m : M A) : bind m ret = m.
Proof.
  destruct m as [o [a | f | c | ]]; cbn; rewrite ?app_nil_r; reflexivity.
Qed.

Lemma bind_assoc {A B C} (m : M A) (k : A -> M B) (h : B -> M C) :
  bind (bind m k) h = bind m (fun a => bind (k a) h).
Proof.
  destruct m as [o [a | f | c | ]]; cbn; try reflexivity.
  destruct (k a) as [o2 [b | f | c | ]]; cbn; try reflexivity.
  destruct (h b) as [o3 r]. rewrite app_assoc. reflexivity.
Qed.

Lemma bind_ext {A B} (m : M A) (k k' : A -> M B) :
  (forall a, k a = k' a) -> bind m k = bind m k'.
Proof.
  intros H. destruct m as [o [a | f | c | ]]; cbn; try reflexivity.
  now rewrite H.
Qed.

Lemma bind_must_some {A B} (o : option A) (a : A) (k : A -> M B) :
  o = Some a -> bind (must o) k = k a.
Proof. intros ->. apply bind_ret_l. Qed.

Lemma result_bind {A B} (m : M A) (k : A -> M B) :
  result (bind m k)
  = match result m with
    | Ok a => result (k a)
    | Fault f => Fault f
    | Exit c => Exit c
    | OutOfFuel => OutOfFuel
    end.
Proof.
  destruct m as [o [a | f | c | ]]; cbn; try reflexivity.
  destruct (k a); reflexivity.
Qed.

(** ** Pointers *)

Lemma padd_padd p a b : padd (padd p a) b = padd p (a + b).
Proof. unfold padd; cbn. f_equal. lia. Qed.

Lemma padd_eq p a b : a = b -> padd p a = padd p b.
Proof. now intros ->. Qed.

(** ** Bytes and little-endian words *)

Lemma byte_to_Z_range b : 0 <= byte_to_Z b < 256.
Proof.
  unfold byte_to_Z. pose proof (Byte.to_N_bounded b). lia.
Qed.

Lemma byte_to_of_Z v : byte_to_Z (byte_of_Z v) = v mod 256.
Proof.
  unfold byte_to_Z, byte_of_Z.
  pose proof (Z.mod_pos_bound v 256 ltac:(lia)) as Hr.
  destruct (Byte.of_N (Z.to_N (v mod 256))) as [b |] eqn:E.
  - apply Byte.to_of_N in E. rewrite E. lia.
  - apply Byte.of_N_None_iff in E. lia.
Qed.

Lemma decode_le32_range bs : 0 <= decode_le32 bs < 2 ^ 32.
Proof.
  destruct bs as [| b0 [| b1 [| b2 [| b3 [| ? ?]]]]]; cbn [decode_le32];
    try lia.
  pose proof (byte_to_Z_range b0). pose proof (byte_to_Z_range b1).
  pose proof (byte_to_Z_range b2). pose proof (byte_to_Z_range b3). lia.
Qed.

Lemma decode_le32_le32 v : decode_le32 (le32 v) = wrap32 v.
Proof.
  unfold le32, decode_le32, wrap32. rewrite !byte_to_of_Z.
  change (2 ^ 8) with 256. change (2 ^ 16) with (256 * 256).
  change (2 ^ 24) with (256 * 256 * 256).
  change (2 ^ 32) with (256 * (256 * (256 * 256))).
  rewrite <- !Z.div_div by lia.
  rewrite (Z.rem_mul_r v 256) by lia.
  rewrite (Z.rem_mul_r (v / 256) 256) by lia.
  rewrite (Z.rem_mul_r (v / 256 / 256) 256) by lia.
  lia.
Qed.

Lemma load_u32_range p v : load_u32 p = Some v -> 0 <= v < 2 ^ 32.
Proof.
  unfold load_u32. destruct (load_bytes p 4) as [bs |]; cbn; [| easy].
  intros [= <-]. apply decode_le32_range.
Qed.

(** ** The walker against the entries of a well-formed region *)

Lemma first_match_app check ctx pk es1 es2 :
  first_match check ctx pk (es1 ++ es2)
  = (r <- first_match check ctx pk es1 ;;
     match r with
     | Some sig => ret (Some sig)
     | None => first_match check ctx pk es2
     end).
Proof.
  induction es1 as [| e es1 IH]; cbn [first_match app].
  - now rewrite bind_ret_l.
  - rewrite bind_assoc. apply bind_ext.
    intros [|]; [now rewrite bind_ret_l | apply IH].
Qed.

Lemma check_entries_first_match check ctx pk g n :
  forall k cert,
    cert = padd (g_header g)
             (sizeof_EFI_SIGNATURE_LIST + g_skip g
              + Z.of_nat k * g_entry g) ->
    check_entries check ctx pk (g_header g) (g_entry g) n cert
    = first_match check ctx pk (map (nth_entry g) (seq k n)).
Proof.
  induction n as [| n IH]; intros k cert ->; cbn [check_entries seq map
    first_match]; [reflexivity |].
  unfold nth_entry at 1 2 3; cbn [fst snd]. rewrite padd_padd.
  apply bind_ext. intros [|]; [reflexivity |].
  apply IH. rewrite padd_padd. apply padd_eq. lia.
Qed.

Lemma check_lists_well_formed check ctx pk dbsize certlist gs :
  well_formed dbsize certlist gs ->
  forall fuel, (length gs < fuel)%nat ->
    check_lists fuel check ctx pk dbsize certlist
    = first_match check ctx pk (entries gs).
Proof.
  induction 1 as [dbsize certlist Hz
                 | dbsize certlist total Hpos Hld Hlt
                 | dbsize certlist g gs Hpos Hhd Hle He Hs Hwf IH];
    intros [| fuel] Hfuel; try (cbn in Hfuel; lia);
    cbn [check_lists entries flat_map first_match].
  - replace (0 <? dbsize) with false by (symmetry; apply Z.ltb_ge; lia).
    reflexivity.
  - replace (0 <? dbsize) with true by (symmetry; apply Z.ltb_lt; lia).
    rewrite (bind_must_some _ _ _ Hld).
    replace (total <=? dbsize) with false
      by (symmetry; apply Z.leb_gt; lia).
    reflexivity.
  - destruct Hhd as (Hg & Ht & Hk & Hn). subst certlist.
    replace (0 <? dbsize) with true by (symmetry; apply Z.ltb_lt; lia).
    rewrite (bind_must_some _ _ _ Ht).
    replace (g_total g <=? dbsize) with true
      by (symmetry; apply Z.leb_le; lia).
    rewrite (bind_must_some _ _ _ Hk), (bind_must_some _ _ _ Hn).
    replace (g_entry g =? 0) with false by (symmetry; apply Z.eqb_neq; lia).
    fold (entries gs). rewrite first_match_app.
    assert (Hw : wrap32 (g_total g - g_skip g) = g_total g - g_skip g).
    { unfold wrap32. apply Z.mod_small.
      apply load_u32_range in Ht. apply load_u32_range in Hk. lia. }
    rewrite Hw. fold (entry_count g).
    rewrite (check_entries_first_match check ctx pk g _ 0%nat)
      by (apply padd_eq; lia).
    fold (group_entries g). apply bind_ext.
    intros [|]; [reflexivity |]. apply IH. cbn in Hfuel. lia.
Qed.

Lemma first_match_none_iff check ctx pk es :
  result (first_match check ctx pk es) = Ok None
  <-> (forall x, In x es -> answer check ctx pk x = Ok NOT_FOUND).
Proof.
  induction es as [| e es IH]; cbn [first_match In].
  - split; [intros _ x [] | reflexivity].
  - rewrite result_bind. unfold answer at 1 in IH. split.
    + intros H x [<- | Hx]; unfold answer;
        destruct (result (check ctx (snd e) (fst e) pk)) as [[|] | | |];
        try discriminate H; [reflexivity | now apply IH].
    + intros H. pose proof (H e (or_introl eq_refl)) as He.
      unfold answer in He. rewrite He. apply IH.
      intros x Hx. apply H. now right.
Qed.

Lemma first_match_found check ctx pk pre e post :
  (forall x, In x pre -> answer check ctx pk x = Ok NOT_FOUND) ->
  answer check ctx pk e = Ok FOUND ->
  result (first_match check ctx pk (pre ++ e :: post)) = Ok (Some (snd e)).
Proof.
  intros Hpre He. rewrite first_match_app, result_bind.
  apply first_match_none_iff in Hpre. rewrite Hpre.
  cbn [first_match]. rewrite result_bind. unfold answer in He.
  now rewrite He.
Qed.

Lemma check_chain_first_match fuel which check ctx pk c gss :
  well_formed_chain c gss ->
  Forall (fun gs => (length gs < fuel)%nat) gss ->
  result (check_chain fuel which check ctx pk c)
  = result (first_match check ctx pk (concat (map entries gss))).
Proof.
  induction 1 as [| d gs c gss Hwf _ IH]; intros Hfuel;
    cbn [check_chain map concat]; [reflexivity |].
  inversion Hfuel as [| ? ? Hgs Hgss]; subst.
  rewrite first_match_app, !result_bind. cbn [say result snd].
  rewrite (check_lists_well_formed _ _ _ _ _ _ Hwf _ Hgs).
  destruct (result (first_match check ctx pk (entries gs)))
    as [[sig |] | | |]; try reflexivity.
  now apply IH.
Qed.

Lemma consumed_bound dbsize certlist gs :
  well_formed dbsize certlist gs -> 0 <= dbsize ->
  0 <= consumed gs <= dbsize.
Proof.
  induction 1 as [| | dbsize certlist g gs Hpos Hhd Hle He Hs Hwf IH];
    intros Hnn; cbn [consumed fold_right]; try lia.
  fold (consumed gs). destruct Hhd as (_ & Ht & Hk & _).
  apply load_u32_range in Ht, Hk. lia.
Qed.

Lemma well_formed_laid_out dbsize certlist gs :
  well_formed dbsize certlist gs -> laid_out certlist gs.
Proof.
  induction 1 as [| | dbsize certlist g gs Hpos Hhd Hle He Hs Hwf IH];
    cbn [laid_out]; auto.
  destruct Hhd as (Hg & _). now split.
Qed.

Lemma well_formed_groups dbsize certlist gs :
  well_formed dbsize certlist gs ->
  Forall (fun g => 0 < g_entry g /\ 0 <= g_skip g < g_total g) gs.
Proof.
  induction 1 as [| | dbsize certlist g gs Hpos Hhd Hle He Hs Hwf IH];
    constructor; auto.
  destruct Hhd as (_ & _ & Hk & _). apply load_u32_range in Hk. lia.
Qed.

Lemma group_entries_length g :
  length (group_entries g) = Z.to_nat ((g_total g - g_skip g) / g_entry g).
Proof.
  unfold group_entries, entry_count. now rewrite length_map, length_seq.
Qed.

Lemma group_entries_nth g i :
  (i < length (group_entries g))%nat ->
  nth_error (group_entries g) i = Some (nth_entry g i).
Proof.
  intros Hi. unfold group_entries in *.
  rewrite length_map, length_seq in Hi.
  rewrite nth_error_map, nth_error_seq.
  destruct (Nat.ltb_spec i (Z.to_nat (entry_count g))); [reflexivity | lia].
Qed.

(** Building the derivation of [well_formed] for a concrete region. *)
Ltac well_formed_region :=
  repeat first
    [ apply wf_end; lia
    | eapply wf_truncated; [lia | vm_compute; reflexivity | lia]
    | apply wf_group;
      [ lia | repeat split; vm_compute; reflexivity
      | cbn; lia | cbn; lia | cbn; lia | cbn ] ].

Lemma two_group_region_well_formed :
  well_formed 160 (mkptr two_group_region 0) two_groups.
Proof. unfold two_groups. well_formed_region. Qed.

(** ** The walk over a well-formed region *)

(** C2.  For a well-formed region of [dbsize] bytes with groups [gs], the
    inner loop of [check_db] applies the predicate to the entries of the
    groups in order, to nothing else, and up to the first entry reported
    found; each group contributes exactly
    [(total_size - header_skip) / entry_size] entries, at increasing
    addresses; each group starts where the one before it ends by its
    declared total size; the walk ends without an error when every entry
    is rejected, and at once when the bytes left are fewer than the next
    header declares; and the total sizes of the groups walked sum to at
    most [dbsize]. *)
Theorem walk_well_formed_region dbsize certlist gs :
  well_formed dbsize certlist gs ->
  0 <= dbsize ->
  (forall check ctx pk fuel, (length gs < fuel)%nat ->
     check_lists fuel check ctx pk dbsize certlist
     = first_match check ctx pk (entries gs)) /\
  (forall check ctx pk fuel, (length gs < fuel)%nat ->
     (forall e, In e (entries gs) -> answer check ctx pk e = Ok NOT_FOUND) ->
     result (check_lists fuel check ctx pk dbsize certlist) = Ok None) /\
  (forall g, In g gs ->
     length (group_entries g)
     = Z.to_nat ((g_total g - g_skip g) / g_entry g) /\
     (forall i, (i < length (group_entries g))%nat ->
        nth_error (group_entries g) i = Some (nth_entry g i)) /\
     (forall i j, (i < j)%nat ->
        off (data (snd (nth_entry g i)))
        < off (data (snd (nth_entry g j))))) /\
  laid_out certlist gs /\
  (forall check ctx pk fuel size ptr total,
     0 < size ->
     load_u32 (padd ptr offsetof_SignatureListSize) = Some total ->
     size < total ->
     check_lists (S fuel) check ctx pk size ptr = ret None) /\
  0 <= consumed gs <= dbsize.
Proof.
  intros Hwf Hsize. repeat split.
  - intros. now apply check_lists_well_formed.
  - intros check ctx pk fuel Hfuel Hall.
    rewrite (check_lists_well_formed _ _ _ _ _ _ Hwf _ Hfuel).
    now apply first_match_none_iff.
  - apply group_entries_length.
  - apply group_entries_nth.
  - intros i j Hij.
    pose proof (well_formed_groups _ _ _ Hwf) as Hgs.
    rewrite Forall_forall in Hgs. destruct (Hgs _ H) as (He & _).
    unfold nth_entry; cbn. nia.
  - eapply well_formed_laid_out; eauto.
  - intros check ctx pk fuel size p total Hpos Hld Hlt.
    cbn [check_lists].
    replace (0 <? size) with true by (symmetry; apply Z.ltb_lt; lia).
    rewrite (bind_must_some _ _ _ Hld).
    replace (total <=? size) with false by (symmetry; apply Z.leb_gt; lia).
    reflexivity.
  - eapply consumed_bound; eauto.
  - eapply consumed_bound; eauto.
Qed.

Lemma walk_well_formed_region_witness :
  well_formed 160 (mkptr two_group_region 0) two_groups /\
  0 <= 160 /\
  check_lists 3 check_hash (context_of [] []) (mkSECItem null_ptr 0) 160
    (mkptr two_group_region 0)
  = first_match check_hash (context_of [] []) (mkSECItem null_ptr 0)
      (entries two_groups) /\
  0 <= consumed two_groups <= 160.
Proof.
  assert (Hwf : well_formed 160 (mkptr two_group_region 0) two_groups)
    by (unfold two_groups; well_formed_region).
  assert (Hsize : 0 <= 160) by lia.
  pose proof (walk_well_formed_region 160 (mkptr two_group_region 0)
                two_groups Hwf Hsize) as (Hwalk & _ & _ & _ & _ & Hsum).
  split; [exact Hwf | split; [exact Hsize | split; [| exact Hsum]]].
  apply Hwalk. cbn. lia.
Defined.

(** ** The matcher *)

Lemma add_db_file_links os ctx which dbfile type out rc e ctx' :
  add_db_file os ctx which dbfile type = (out, Ok (rc, e, ctx')) ->
  (rc = -1 /\ ctx' = ctx) \/
  (rc = 0 /\ exists d,
     db_type d = type /\
     ctx' = set_chain which (d :: chain which ctx) ctx).
Proof.
  unfold add_db_file, link_source, ret.
  destruct (calloc_dblist os); [| intros [= <- <- <- <-]; now left].
  destruct (open_ os); [| intros [= <- <- <- <-]; now left].
  destruct (strdup_dbfile os); [| intros [= <- <- <- <-]; now left].
  destruct (strdup_basename os); [| intros [= <- <- <- <-]; now left].
  destruct (fstat_ os); [| intros [= <- <- <- <-]; now left].
  destruct (match mmap_ os with Done m => Done m | Failed _ => read_file_ os
            end); [| intros [= <- <- <- <-]; now left].
  destruct type.
  - intros [= <- <- <- <-]. right. split; [reflexivity |].
    eexists; split; [| reflexivity]; reflexivity.
  - intros [= <- <- <- <-]. right. split; [reflexivity |].
    eexists; split; [| reflexivity]; reflexivity.
  - destruct (calloc_data os); [| intros [= <- <- <- <-]; now left].
    repeat match goal with
      | |- context [must ?o] => destruct o; cbn [must bind ret raise]
      end; try discriminate.
    intros [= <- <- <- <-]. right. split; [reflexivity |].
    eexists; split; [| reflexivity]; reflexivity.
Qed.

(** C3.  [check_db] goes through the sources of the chosen chain in chain
    order, and through the entries of each source in byte order (the
    sources being well formed, with groups [gss]): it returns FOUND, with
    the payload of that entry when the caller gave a place for it, as soon
    as the predicate reports an entry found that comes after rejected
    entries only; it returns NOT_FOUND exactly when the predicate rejects
    every entry of every source; and the chain order is most recently
    added first, a successful [add_db_file] putting its source at the
    head. *)
Theorem check_db_first_found which ctx gss fuel :
  well_formed_chain (chain which ctx) gss ->
  Forall (fun gs => (length gs < fuel)%nat) gss ->
  forall check data_ datalen match_,
    let pk := mkSECItem data_ (wrap32 datalen) in
    (forall pre e post,
       concat (map entries gss) = pre ++ e :: post ->
       (forall x, In x pre -> answer check ctx pk x = Ok NOT_FOUND) ->
       answer check ctx pk e = Ok FOUND ->
       result (check_db fuel which ctx check data_ datalen match_)
       = Ok (FOUND, option_map (fun _ => snd e) match_)) /\
    (result (check_db fuel which ctx check data_ datalen match_)
     = Ok (NOT_FOUND, match_)
     <-> (forall x, In x (concat (map entries gss)) ->
            answer check ctx pk x = Ok NOT_FOUND)) /\
    (forall os dbfile type out e ctx',
       add_db_file os ctx which dbfile type = (out, Ok (0, e, ctx')) ->
       exists d, chain which ctx' = d :: chain which ctx).
Proof.
  intros Hwf Hfuel check data_ datalen match_ pk.
  pose proof (check_chain_first_match fuel which check ctx pk _ _ Hwf Hfuel)
    as Hchain.
  assert (Hdb : result (check_db fuel which ctx check data_ datalen match_)
                = match result (first_match check ctx pk
                                  (concat (map entries gss))) with
                  | Ok (Some sig) =>
                      Ok (FOUND, option_map (fun _ => sig) match_)
                  | Ok None => Ok (NOT_FOUND, match_)
                  | Fault f => Fault f
                  | Exit c => Exit c
                  | OutOfFuel => OutOfFuel
                  end).
  { unfold check_db. fold pk. rewrite result_bind, Hchain.
    destruct (result (first_match _ _ _ _)) as [[sig |] | | |];
      reflexivity. }
  split; [| split].
  - intros pre e post Hes Hpre He.
    rewrite Hdb, Hes, (first_match_found _ _ _ _ _ _ Hpre He). reflexivity.
  - rewrite Hdb, <- first_match_none_iff.
    destruct (result (first_match _ _ _ _)) as [[sig |] | | |];
      split; intros H; try discriminate H; reflexivity.
  - intros os dbfile type out e ctx' Hadd.
    apply add_db_file_links in Hadd as [[Hrc _] | [_ (d & _ & ->)]];
      [discriminate Hrc |].
    exists d. destruct which; reflexivity.
Qed.

Lemma check_db_first_found_witness :
  well_formed_chain
    (chain DB (context_of [source_of "db" two_group_region] []))
    [two_groups] /\
  Forall (fun gs => (length gs < 3)%nat) [two_groups] /\
  result (check_db 3 DB (context_of [source_of "db" two_group_region] [])
            check_hash null_ptr 0 (Some (mkSECItem null_ptr 0)))
  = Ok (FOUND,
        Some (mkSECItem (mkptr two_group_region 44) 32)).
Proof.
  assert (Hwf : well_formed_chain
                  (chain DB (context_of [source_of "db" two_group_region] []))
                  [two_groups]).
  { constructor; [| constructor].
    change (well_formed 160 (mkptr two_group_region 0) two_groups).
    unfold two_groups; well_formed_region. }
  assert (Hfuel : Forall (fun gs => (length gs < 3)%nat) [two_groups]).
  { constructor; [cbn; lia | constructor]. }
  split; [exact Hwf | split; [exact Hfuel |]].
  pose proof (check_db_first_found DB _ _ _ Hwf Hfuel check_hash null_ptr 0
                (Some (mkSECItem null_ptr 0))) as (Hfound & _ & _).
  apply (Hfound [] (nth_entry (mkgroup (mkptr two_group_region 0) 76 0 48) 0)
           [nth_entry (mkgroup (mkptr two_group_region 76) 64 0 36) 0]).
  - reflexivity.
  - intros x [].
  - vm_compute. reflexivity.
Defined.

(** ** Malformed headers *)

Lemma zero_total_size_never_ends check ctx pk fuel :
  check_lists fuel check ctx pk 28 (mkptr zero_total_size_region 0)
  = out_of_fuel.
Proof.
  induction fuel as [| fuel IH]; [reflexivity |].
  cbn [check_lists].
  change (0 <? 28) with true. cbv iota.
  rewrite (bind_must_some _ 0) by reflexivity.
  change (0 <=? 28) with true. cbv iota.
  rewrite (bind_must_some _ 0) by reflexivity.
  rewrite (bind_must_some _ 1) by reflexivity.
  change (1 =? 0) with false. cbv iota.
  change (Z.to_nat (wrap32 (0 - 0) / 1)) with O.
  cbn [check_entries]. rewrite bind_ret_l.
  exact IH.
Qed.

(** One turn of the loop on a header that passes its guard and declares
    a positive entry size: nothing else of the header is looked at, so
    the group is walked whatever its sizes are, a total size below the
    size of the header included.  The predicate is applied to
    [((total_size - header_skip) mod 2 ^ 32) / entry_size] entries and the
    walk goes on [total_size] bytes further. *)
Lemma check_db_does_not_validate_headers check ctx pk fuel dbsize certlist
  total skip entry :
  0 < dbsize ->
  load_u32 (padd certlist offsetof_SignatureListSize) = Some total ->
  load_u32 (padd certlist offsetof_SignatureHeaderSize) = Some skip ->
  load_u32 (padd certlist offsetof_SignatureSize) = Some entry ->
  total <= dbsize ->
  0 < entry ->
  check_lists (S fuel) check ctx pk dbsize certlist
  = (r <- first_match check ctx pk
            (map (nth_entry (mkgroup certlist total skip entry))
               (seq 0 (Z.to_nat (wrap32 (total - skip) / entry)))) ;;
     match r with
     | Some sig => ret (Some sig)
     | None =>
         check_lists fuel check ctx pk (dbsize - total)
           (padd certlist total)
     end).
Proof.
  intros Hpos Ht Hk Hn Hle He. cbn [check_lists].
  replace (0 <? dbsize) with true by (symmetry; apply Z.ltb_lt; lia).
  rewrite (bind_must_some _ _ _ Ht).
  replace (total <=? dbsize) with true by (symmetry; apply Z.leb_le; lia).
  rewrite (bind_must_some _ _ _ Hk), (bind_must_some _ _ _ Hn).
  replace (entry =? 0) with false by (symmetry; apply Z.eqb_neq; lia).
  rewrite (check_entries_first_match check ctx pk
             (mkgroup certlist total skip entry) _ 0%nat)
    by (cbn [g_header g_skip g_entry]; apply padd_eq; lia).
  reflexivity.
Qed.

Lemma check_db_does_not_validate_headers_witness :
  0 < 36 /\
  load_u32 (padd (mkptr overlapping_region 0) offsetof_SignatureListSize)
  = Some 8 /\
  8 <= 36 /\ 0 < 8 /\
  result (check_lists 3 never_found (context_of [] [])
            (mkSECItem null_ptr 0) 36 (mkptr overlapping_region 0))
  = Ok None.
Proof.
  assert (Hpos : 0 < 36) by lia.
  assert (Ht : load_u32 (padd (mkptr overlapping_region 0)
                           offsetof_SignatureListSize) = Some 8)
    by (vm_compute; reflexivity).
  assert (Hk : load_u32 (padd (mkptr overlapping_region 0)
                           offsetof_SignatureHeaderSize) = Some 0)
    by (vm_compute; reflexivity).
  assert (Hn : load_u32 (padd (mkptr overlapping_region 0)
                           offsetof_SignatureSize) = Some 8)
    by (vm_compute; reflexivity).
  assert (Hle : 8 <= 36) by lia.
  assert (He : 0 < 8) by lia.
  refine (conj Hpos (conj Ht (conj Hle (conj He _)))).
  rewrite (check_db_does_not_validate_headers never_found
             (context_of [] []) (mkSECItem null_ptr 0) 2 36
             (mkptr overlapping_region 0) 8 0 8 Hpos Ht Hk Hn Hle He).
  vm_compute. reflexivity.
Defined.

(** C1.  [check_db] does not reject a malformed header; it has no
    outcome for one.  On a region whose header declares an entry size of
    0 it divides by zero in the count of entries; on one whose header
    declares a total size of 0, which is below the size of the header,
    the loop never ends, whatever the number of turns allowed; and a
    region whose headers declare a total size of 8, below the size of
    the header, is walked to its end and answered NOT_FOUND like a sound
    one. *)
Theorem check_db_malformed_header :
  (forall fuel check data_ datalen match_,
     result (check_db (S fuel) DB
               (context_of [source_of "db" zero_entry_size_region] [])
               check data_ datalen match_)
     = Fault DivisionByZero) /\
  (forall fuel check data_ datalen match_,
     result (check_db fuel DB
               (context_of [source_of "db" zero_total_size_region] [])
               check data_ datalen match_)
     = OutOfFuel) /\
  (forall fuel data_ datalen match_,
     check_db (S (S (S fuel))) DB
       (context_of [source_of "db" overlapping_region] [])
       never_found data_ datalen match_
     = ([Stdout (Searching DB "db")], Ok (NOT_FOUND, match_))).
Proof.
  split; [| split].
  - intros. vm_compute. reflexivity.
  - intros fuel check data_ datalen match_.
    unfold check_db. rewrite result_bind.
    cbn [chain context_of db check_chain source_of db_path db_datalen
         db_data].
    rewrite result_bind. cbn [say result snd]. rewrite result_bind.
    change (len zero_total_size_region) with 28.
    rewrite zero_total_size_never_ends. reflexivity.
  - intros. vm_compute. reflexivity.
Qed.

(** ** The hash predicate *)

Lemma bytes_eqb_true a b : bytes_eqb a b = true <-> a = b.
Proof.
  unfold bytes_eqb. destruct (list_eq_dec Byte.byte_eq_dec a b);
    split; congruence.
Qed.

Lemma memcmp_eq_loads p q n :
  memcmp_eq p q n
  = match load_bytes p n, load_bytes q n with
    | Some a, Some b => ret (bytes_eqb a b)
    | _, _ => raise OutOfBounds
    end.
Proof.
  unfold memcmp_eq.
  destruct (load_bytes p n) as [a |]; [| reflexivity].
  rewrite (bind_must_some _ a) by reflexivity.
  destruct (load_bytes q n) as [b |]; [| reflexivity].
  now rewrite (bind_must_some _ b).
Qed.

Lemma load_guid (g : list byte) :
  length g = 16%nat ->
  load_bytes (mkptr g 0) sizeof_efi_guid_t = Some g.
Proof.
  intros Hg. unfold load_bytes, len, slice, sizeof_efi_guid_t.
  cbn [obj off]. rewrite Hg. cbn [skipn Z.to_nat].
  rewrite firstn_all2 by (rewrite Hg; apply Nat.le_refl). reflexivity.
Qed.

(** C4.  On an entry whose type tag is [tag], [check_hash] answers FOUND
    exactly when the tag is the SHA-256 identifier and the first 32 bytes
    of the payload are the SHA-256 digest of the context, or the tag is
    the SHA-1 identifier and the first 20 bytes of the payload are its
    SHA-1 digest; on any other tag it answers NOT_FOUND, with no fault and
    no output. *)
Theorem check_hash_found_iff ctx sig sigtype pkcs7sig tag :
  load_bytes sigtype sizeof_efi_guid_t = Some tag ->
  (result (check_hash ctx sig sigtype pkcs7sig) = Ok FOUND
   <-> (tag = efi_guid_sha256 /\
        exists d, load_bytes (data sig) 32 = Some d /\
                  load_bytes (pe_digest0 ctx) 32 = Some d)
       \/ (tag = efi_guid_sha1 /\
           exists d, load_bytes (data sig) 20 = Some d /\
                     load_bytes (pe_digest1 ctx) 20 = Some d)) /\
  (tag <> efi_guid_sha256 -> tag <> efi_guid_sha1 ->
   check_hash ctx sig sigtype pkcs7sig = ret NOT_FOUND).
Proof.
  intros Htag.
  assert (Hdiff : efi_guid_sha256 <> efi_guid_sha1) by discriminate.
  unfold check_hash. rewrite !memcmp_eq_loads, Htag.
  rewrite !load_guid by reflexivity. rewrite ?bind_ret_l.
  destruct (bytes_eqb tag efi_guid_sha256) eqn:E256.
  - apply bytes_eqb_true in E256. subst tag. split; [| congruence].
    destruct (load_bytes (pe_digest0 ctx) 32) as [d0 |];
      [destruct (load_bytes (data sig) 32) as [d |] |].
    + rewrite ?bind_ret_l. destruct (bytes_eqb d0 d) eqn:Ed.
      * apply bytes_eqb_true in Ed. subst d0. split; [| reflexivity].
        intros _. left. split; [reflexivity |]. now exists d.
      * split; [discriminate |].
        intros [(_ & d' & [= <-] & [= ->]) | (H & _)]; [| congruence].
        assert (bytes_eqb d d = true) by now apply bytes_eqb_true.
        congruence.
    + split; [discriminate |].
      intros [(_ & d' & H & _) | (H & _)]; congruence.
    + split; [discriminate |].
      intros [(_ & d' & _ & H) | (H & _)]; congruence.
  - assert (Hn256 : tag <> efi_guid_sha256).
    { intros ->. assert (bytes_eqb efi_guid_sha256 efi_guid_sha256 = true)
        by now apply bytes_eqb_true. congruence. }
    rewrite ?bind_ret_l.
    destruct (bytes_eqb tag efi_guid_sha1) eqn:E1.
    + apply bytes_eqb_true in E1. subst tag. split; [| congruence].
      destruct (load_bytes (pe_digest1 ctx) 20) as [d0 |];
        [destruct (load_bytes (data sig) 20) as [d |] |].
      * rewrite ?bind_ret_l. destruct (bytes_eqb d0 d) eqn:Ed.
        -- apply bytes_eqb_true in Ed. subst d0. split; [| reflexivity].
           intros _. right. split; [reflexivity |]. now exists d.
        -- split; [discriminate |].
           intros [(H & _) | (_ & d' & [= <-] & [= ->])]; [congruence |].
           assert (bytes_eqb d d = true) by now apply bytes_eqb_true.
           congruence.
      * split; [discriminate |].
        intros [(H & _) | (_ & d' & H & _)]; congruence.
      * split; [discriminate |].
        intros [(H & _) | (_ & d' & _ & H)]; congruence.
    + assert (Hn1 : tag <> efi_guid_sha1).
      { intros ->. assert (bytes_eqb efi_guid_sha1 efi_guid_sha1 = true)
          by now apply bytes_eqb_true. congruence. }
      split; [| reflexivity].
      split; [discriminate |]. intros [(H & _) | (H & _)]; congruence.
Qed.

Lemma check_hash_found_iff_witness :
  load_bytes (mkptr two_group_region 0) sizeof_efi_guid_t
  = Some efi_guid_sha256 /\
  result (check_hash (context_of [] [])
            (mkSECItem (mkptr two_group_region 44) 32)
            (mkptr two_group_region 0) (mkSECItem null_ptr 0))
  = Ok FOUND.
Proof.
  assert (Htag : load_bytes (mkptr two_group_region 0) sizeof_efi_guid_t
                 = Some efi_guid_sha256) by (vm_compute; reflexivity).
  split; [exact Htag |].
  apply (check_hash_found_iff (context_of [] [])
           (mkSECItem (mkptr two_group_region 44) 32)
           (mkptr two_group_region 0) (mkSECItem null_ptr 0)
           efi_guid_sha256 Htag).
  left. split; [reflexivity |].
  exists artifact_sha256. split; vm_compute; reflexivity.
Defined.

(** ** The validity window and the evaluation time *)






Lemma signing_window_signing_time nss cinfo :
  signing_window nss cinfo
  = let w := signing_window nss (without_signing_time cinfo) in
    match signing_time cinfo with
    | Some (Some t) => (Z.max (fst w) t, Z.min (snd w) t)
    | _ => w
    end.
Proof.
  unfold signing_window, without_signing_time, find_cert_times;
    cbn [signing_time is_signed_data rawCerts].
  set (ft := if negb (is_signed_data cinfo) then _ else _).
  destruct ft as [nB nA].
  destruct (signing_time cinfo) as [[t |] |]; cbn [fst snd]; try reflexivity.
  f_equal.
  - destruct (Z.ltb_spec 0 nB);
      match goal with |- context [?x <? t] => destruct (Z.ltb_spec x t) end;
      lia.
  - destruct (Z.ltb_spec nA PRTime_MAX);
      match goal with |- context [t <? ?x] => destruct (Z.ltb_spec t x) end;
      lia.
Qed.

Lemma signing_window_early nss cinfo : 0 <= fst (signing_window nss cinfo).
Proof.
  rewrite signing_window_signing_time. cbv zeta.
  assert (H : 0 <= fst (signing_window nss (without_signing_time cinfo))).
  { unfold signing_window. cbn [signing_time without_signing_time].
    destruct (find_cert_times _ _ _ _) as [nB nA]. cbn [fst].
    destruct (Z.ltb_spec 0 nB); lia. }
  destruct (signing_time cinfo) as [[t |] |]; cbn [fst]; lia.
Qed.

Lemma check_cert_reaches_verifier nss ctx sig sigtype pk cinfo cinfo2
  content digest :
  reaches_verifier nss sig sigtype pk cinfo cinfo2 content digest ->
  check_cert nss ctx sig sigtype pk
  = let w := signing_window nss cinfo in
    if SEC_PKCS7VerifyDetachedSignatureAtTime nss cinfo2 digest
         (evaluation_time w)
    then (window_report w, Ok FOUND)
    else (window_report w ++ [Stderr VerifyError], Ok NOT_FOUND).
Proof.
  intros (Htag & Hd1 & Hd2 & Ha & Ho & Hc & Hb & Hs & Hop & Hf & Hn & Ht
          & Hch).
  unfold check_cert. rewrite memcmp_eq_loads, Htag.
  rewrite load_guid by reflexivity. rewrite bind_ret_l.
  assert (He : bytes_eqb efi_guid_x509_cert efi_guid_x509_cert = true)
    by now apply bytes_eqb_true.
  rewrite He, Hd1, Hd2, Ha, Ho, Hc, Hb, Hs, Hop, Hf, Hn, Ht, Hch.
  cbn [negb with_context]. rewrite !bind_ret_l. cbv zeta.
  unfold window_report.
  destruct (SEC_PKCS7VerifyDetachedSignatureAtTime nss cinfo2 digest _);
    destruct (snd (signing_window nss cinfo)
              <? fst (signing_window nss cinfo)); reflexivity.
Qed.




(** ** The failures of the certificate predicate *)

Lemma check_cert_other_tag nss ctx sig sigtype pk tag :
  load_bytes sigtype sizeof_efi_guid_t = Some tag ->
  tag <> efi_guid_x509_cert ->
  check_cert nss ctx sig sigtype pk = ret NOT_FOUND.
Proof.
  intros Htag Hne. unfold check_cert. rewrite memcmp_eq_loads, Htag.
  rewrite load_guid by reflexivity. rewrite bind_ret_l.
  destruct (bytes_eqb tag efi_guid_x509_cert) eqn:E; [| reflexivity].
  apply bytes_eqb_true in E. contradiction.
Qed.

(** X9.  With a digest context and a message that has content,
    [check_cert] answers NOT_FOUND or FOUND and nothing else.  FOUND is
    the answer exactly when the entry is tagged X.509, every library call
    before the verification succeeded (the two decodings,
    SECITEM_AllocItem, SECOID_FindOIDByTag, PK11_DigestBegin,
    PK11_DigestOp, PK11_DigestFinal, CERT_NewTempCertificate,
    CERT_DecodeTrustString, CERT_ChangeCertTrust) and the verifier
    accepted at the evaluation time; and the failure of any one of these
    calls makes the answer NOT_FOUND. *)
Theorem check_cert_never_fatal nss ctx sig sigtype pk tag :
  load_bytes sigtype sizeof_efi_guid_t = Some tag ->
  PK11_CreateDigestContext nss = true ->
  (forall cinfo2, decode_second nss pk = Some cinfo2 ->
                  signed_content cinfo2 <> None) ->
  (result (check_cert nss ctx sig sigtype pk) = Ok NOT_FOUND \/
   result (check_cert nss ctx sig sigtype pk) = Ok FOUND) /\
  (result (check_cert nss ctx sig sigtype pk) = Ok FOUND <->
   exists cinfo cinfo2 content digest,
     reaches_verifier nss sig sigtype pk cinfo cinfo2 content digest /\
     SEC_PKCS7VerifyDetachedSignatureAtTime nss cinfo2 digest
       (evaluation_time (signing_window nss cinfo)) = true) /\
  (tag <> efi_guid_x509_cert \/
   decode_first nss pk = None \/
   decode_second nss pk = None \/
   SECITEM_AllocItem nss = false \/
   SECOID_FindOIDByTag nss = false \/
   PK11_DigestBegin nss = false \/
   (exists cinfo2 content,
      decode_second nss pk = Some cinfo2 /\
      signed_content cinfo2 = Some content /\
      PK11_DigestOp nss (padd (data content) 2)
        (wrap32 (len_ content - 2)) = false) \/
   PK11_DigestFinal nss = None \/
   CERT_NewTempCertificate nss sig = false \/
   CERT_DecodeTrustString nss = false \/
   CERT_ChangeCertTrust nss = false \/
   (exists cinfo cinfo2 digest,
      decode_first nss pk = Some cinfo /\
      decode_second nss pk = Some cinfo2 /\
      PK11_DigestFinal nss = Some digest /\
      SEC_PKCS7VerifyDetachedSignatureAtTime nss cinfo2 digest
        (evaluation_time (signing_window nss cinfo)) = false) ->
   result (check_cert nss ctx sig sigtype pk) = Ok NOT_FOUND).
Proof.
  intros Htag Hctx Hcontent.
  assert (Hmain :
    (result (check_cert nss ctx sig sigtype pk) = Ok NOT_FOUND \/
     result (check_cert nss ctx sig sigtype pk) = Ok FOUND) /\
    (result (check_cert nss ctx sig sigtype pk) = Ok FOUND ->
     exists cinfo cinfo2 content digest,
       reaches_verifier nss sig sigtype pk cinfo cinfo2 content digest /\
       SEC_PKCS7VerifyDetachedSignatureAtTime nss cinfo2 digest
         (evaluation_time (signing_window nss cinfo)) = true)).
  { unfold check_cert. rewrite memcmp_eq_loads, Htag.
    rewrite load_guid by reflexivity. rewrite bind_ret_l.
    destruct (bytes_eqb tag efi_guid_x509_cert) eqn:Etag; cbn [negb];
      [| split; [now left | discriminate]].
    apply bytes_eqb_true in Etag. subst tag.
    destruct (decode_first nss pk) as [cinfo |] eqn:Hd1;
      [| split; [now left | discriminate]].
    rewrite result_bind.
    replace (result (if snd (signing_window nss cinfo)
                        <? fst (signing_window nss cinfo)
                     then say _ else ret tt)) with (Ok tt)
      by (destruct (_ <? _); reflexivity).
    destruct (decode_second nss pk) as [cinfo2 |] eqn:Hd2;
      [| split; [now left | discriminate]].
    specialize (Hcontent cinfo2 eq_refl).
    destruct (SECITEM_AllocItem nss) eqn:Ha; cbn [negb];
      [| split; [now left | discriminate]].
    destruct (SECOID_FindOIDByTag nss) eqn:Ho; cbn [negb];
      [| split; [now left | discriminate]].
    rewrite Hctx. cbn [with_context]. rewrite bind_ret_l.
    destruct (PK11_DigestBegin nss) eqn:Hb; cbn [negb];
      [| split; [now left | discriminate]].
    destruct (signed_content cinfo2) as [content |] eqn:Hs;
      [| contradiction].
    rewrite bind_ret_l.
    destruct (PK11_DigestOp nss _ _) eqn:Hop; cbn [negb];
      [| split; [now left | discriminate]].
    rewrite bind_ret_l.
    destruct (PK11_DigestFinal nss) as [digest |] eqn:Hf;
      [| split; [now left | discriminate]].
    destruct (CERT_NewTempCertificate nss sig) eqn:Hn; cbn [negb];
      [| split; [now left | discriminate]].
    destruct (CERT_DecodeTrustString nss) eqn:Ht; cbn [negb];
      [| split; [now left | discriminate]].
    destruct (CERT_ChangeCertTrust nss) eqn:Hch; cbn [negb];
      [| split; [now left | discriminate]].
    destruct (SEC_PKCS7VerifyDetachedSignatureAtTime nss cinfo2 digest _)
      eqn:Hv; cbn [negb]; [| split; [now left | discriminate]].
    split; [now right |]. intros _.
    exists cinfo, cinfo2, content, digest. split; [| exact Hv].
    unfold reaches_verifier.
    repeat (split; [assumption |]). assumption. }
  destruct Hmain as [Hor Hfound].
  split; [exact Hor |]. split; [split; [exact Hfound |] |].
  - intros (cinfo & cinfo2 & content & digest & Hr & Hv).
    rewrite (check_cert_reaches_verifier _ ctx _ _ _ _ _ _ _ Hr).
    cbv zeta. rewrite Hv. reflexivity.
  - intros Hfail. destruct Hor as [H | H]; [exact H |].
    exfalso. destruct (Hfound H)
      as (cinfo & cinfo2 & content & digest & Hr & Hv).
    destruct Hr as (Htag' & Hd1 & Hd2 & Ha & Ho & _ & Hb & Hs & Hop & Hf
                    & Hn & Ht & Hch).
    destruct Hfail
      as [F | [F | [F | [F | [F | [F | [F | [F | [F | [F | [F | F]]]]]]]]]]];
      try congruence.
    + destruct F as (c2 & ct & F1 & F2 & F3). congruence.
    + destruct F as (c1 & c2 & d & F1 & F2 & F3 & F4). congruence.
Qed.

(** C6.  When [PK11_CreateDigestContext] fails, [check_cert] goes on with
    the null context (its test is on the pesigcheck context) and the next
    PK11 call dereferences it: the predicate does not answer NOT_FOUND,
    whatever the context, the entry and the verifier. *)
Theorem check_cert_null_digest_context :
  forall ctx sig pk accept,
    result (check_cert
              (sample_nss (sample_cinfo 1 None) [valid_between 1 3] false
                 accept)
              ctx sig (mkptr efi_guid_x509_cert 0) pk)
    = Fault NullPointer.
Proof. intros. vm_compute. reflexivity. Qed.

(** ** The loader *)

(** C10.  When one of its fallible steps fails, [add_db_file] returns -1
    and the context is as it was; and whenever it returns -1 both chains
    are unchanged, a source being linked only by a call that returns 0,
    in which no step failed. *)
Theorem add_db_file_failure_keeps_chains os ctx which dbfile type :
  (some_call_fails os type ->
   exists e, add_db_file os ctx which dbfile type = ret (-1, e, ctx)) /\
  (forall out rc e ctx',
     add_db_file os ctx which dbfile type = (out, Ok (rc, e, ctx')) ->
     rc = -1 ->
     ctx' = ctx /\ db ctx' = db ctx /\ dbx ctx' = dbx ctx) /\
  (forall out rc e ctx',
     add_db_file os ctx which dbfile type = (out, Ok (rc, e, ctx')) ->
     rc <> -1 ->
     rc = 0 /\ ~ some_call_fails os type /\
     exists d, ctx' = set_chain which (d :: chain which ctx) ctx).
Proof.
  refine (conj _ (conj _ _)).
  - unfold some_call_fails, add_db_file. intros H.
    destruct (calloc_dblist os); [| eexists; reflexivity].
    destruct (open_ os); [| eexists; reflexivity].
    destruct (strdup_dbfile os); [| eexists; reflexivity].
    destruct (strdup_basename os); [| eexists; reflexivity].
    destruct (fstat_ os); [| eexists; reflexivity].
    assert (Hrest : (failed (mmap_ os) /\ failed (read_file_ os)) \/
                    (type = DB_CERT /\ failed (calloc_data os)))
      by (cbn [failed] in H; tauto).
    clear H.
    destruct (mmap_ os); [| destruct (read_file_ os)];
      try (eexists; reflexivity);
      (destruct Hrest as [[H1 H2] | [-> H3]]; [contradiction |];
       destruct (calloc_data os); [contradiction | eexists; reflexivity]).
  - intros out rc e ctx' Hadd Hrc.
    apply add_db_file_links in Hadd as [[_ ->] | [-> _]];
      [now repeat split | discriminate].
  - intros out rc e ctx' Hadd Hrc.
    pose proof Hadd as Hl.
    apply add_db_file_links in Hl as [[-> _] | [-> (d & _ & ->)]];
      [contradiction |].
    split; [reflexivity |]. split; [| now exists d].
    revert Hadd. unfold some_call_fails, failed, add_db_file, ret.
    destruct (calloc_dblist os); [| discriminate].
    destruct (open_ os); [| discriminate].
    destruct (strdup_dbfile os); [| discriminate].
    destruct (strdup_basename os); [| discriminate].
    destruct (fstat_ os); [| discriminate].
    destruct (mmap_ os); [| destruct (read_file_ os); [| discriminate]];
      (destruct type;
       [ intros _; intuition discriminate | intros _; intuition discriminate
       | destruct (calloc_data os); [| discriminate]; intros _; tauto ]).
Qed.

Lemma add_db_file_failure_keeps_chains_witness :
  some_call_fails forbidden_file DB_EFIVAR /\
  exists e,
    add_db_file forbidden_file (context_of [] []) DB DB_PATH DB_EFIVAR
    = ret (-1, e, context_of [] []).
Proof.
  assert (Hf : some_call_fails forbidden_file DB_EFIVAR)
    by (right; left; exact I).
  split; [exact Hf |].
  exact (proj1 (add_db_file_failure_keeps_chains forbidden_file
                  (context_of [] []) DB DB_PATH DB_EFIVAR) Hf).
Defined.

Lemma loads_buffer os fd size map :
  loads os fd size map ->
  match mmap_ os with Done m => Done m | Failed _ => read_file_ os end
  = Done map.
Proof.
  intros (_ & _ & _ & _ & _ & [-> | [Hm ->]]); [reflexivity |].
  destruct (mmap_ os); [destruct Hm | reflexivity].
Qed.

Lemma load_bytes_all m : load_bytes (mkptr m 0) (len m) = Some m.
Proof.
  unfold load_bytes, slice, len. cbn [obj off skipn Z.to_nat].
  rewrite Nat2Z.id, firstn_all.
  replace (0 <=? Z.of_nat (length m)) with true
    by (symmetry; apply Z.leb_le; lia).
  replace (0 + Z.of_nat (length m) <=? Z.of_nat (length m)) with true
    by (symmetry; apply Z.leb_le; lia).
  reflexivity.
Qed.

Lemma load_bytes_tail m k :
  0 <= k <= len m ->
  load_bytes (mkptr m k) (len m - k) = Some (skipn (Z.to_nat k) m).
Proof.
  intros Hk. unfold load_bytes, slice, len in *. cbn [obj off].
  replace (0 <=? k) with true by (symmetry; apply Z.leb_le; lia).
  replace (0 <=? Z.of_nat (length m) - k) with true
    by (symmetry; apply Z.leb_le; lia).
  replace (k + (Z.of_nat (length m) - k) <=? Z.of_nat (length m)) with true
    by (symmetry; apply Z.leb_le; lia).
  cbn [andb]. rewrite firstn_all2; [reflexivity |].
  rewrite length_skipn. lia.
Qed.

(** X21.  A firmware-variable source whose buffer has [4 <= N] bytes has
    the [N - 4] bytes from offset 4 of the buffer as its usable region;
    the same file loaded as a plain file has the whole buffer; and the
    two sources differ in nothing but their kind, the offset 4 and the
    length. *)
Theorem add_db_file_usable_region os ctx which dbfile fd N map :
  loads os fd N map ->
  4 <= N < 2 ^ 64 ->
  add_db_file os ctx which dbfile DB_EFIVAR
  = ret (0, 0,
         set_chain which
           (mkdblist DB_EFIVAR fd (basename_ os) map N (mkptr map 4) (N - 4)
            :: chain which ctx) ctx) /\
  add_db_file os ctx which dbfile DB_FILE
  = ret (0, 0,
         set_chain which
           (mkdblist DB_FILE fd (basename_ os) map N (mkptr map 0) N
            :: chain which ctx) ctx) /\
  mkptr map 4 = padd (mkptr map 0) 4 /\
  (N = len map ->
   load_bytes (mkptr map 0) N = Some map /\
   load_bytes (mkptr map 4) (N - 4) = Some (skipn 4 map)).
Proof.
  intros Hl HN. pose proof (loads_buffer _ _ _ _ Hl) as Hbuf.
  destruct Hl as (Hc & Ho & Hs1 & Hs2 & Hf & _).
  assert (HwN : wrap64 N = N) by (apply Z.mod_small; lia).
  assert (HwN4 : wrap64 (N - 4) = N - 4) by (apply Z.mod_small; lia).
  unfold add_db_file, link_source.
  rewrite Hc, Ho, Hs1, Hs2, Hf, Hbuf, HwN, HwN4.
  repeat split.
  - subst N. apply load_bytes_all.
  - subst N. apply (load_bytes_tail map 4). lia.
Qed.

Lemma add_db_file_usable_region_witness :
  loads (readable_file "db" two_group_region) 3 160 two_group_region /\
  4 <= 160 < 2 ^ 64 /\
  add_db_file (readable_file "db" two_group_region) (context_of [] []) DB
    DB_PATH DB_EFIVAR
  = ret (0, 0,
         set_chain DB
           [mkdblist DB_EFIVAR 3 "db" two_group_region 160
              (mkptr two_group_region 4) 156] (context_of [] [])).
Proof.
  assert (Hl : loads (readable_file "db" two_group_region) 3 160
                 two_group_region)
    by (repeat split; left; reflexivity).
  assert (HN : 4 <= 160 < 2 ^ 64) by lia.
  split; [exact Hl | split; [exact HN |]].
  exact (proj1 (add_db_file_usable_region
                  (readable_file "db" two_group_region) (context_of [] [])
                  DB DB_PATH 3 160 two_group_region Hl HN)).
Defined.

(** C7.  A firmware variable whose buffer is shorter than the 4-byte
    attribute prefix is not refused.  For a buffer of two bytes
    [add_db_file] returns 0 and links a source whose region starts at
    offset 4, past the end of the buffer, and is said to have
    [2 ^ 64 - 2] bytes: [db->size - 4] is computed without a test of
    [db->size] and wraps around. *)
Theorem add_db_file_short_variable :
  add_db_file (readable_file "db" [x07; x00]) (context_of [] []) DB
    DB_PATH DB_EFIVAR
  = ret (0, 0,
         set_chain DB
           [mkdblist DB_EFIVAR 3 "db" [x07; x00] 2 (mkptr [x07; x00] 4)
              (2 ^ 64 - 2)] (context_of [] [])).
Proof. vm_compute. reflexivity. Qed.

(** ** The synthesized region of a bare certificate *)

Lemma len_app a b : len (a ++ b) = len a + len b.
Proof. unfold len. rewrite length_app. lia. Qed.

Lemma len_nonneg m : 0 <= len m.
Proof. unfold len. lia. Qed.

Lemma store_bytes_mid a b c bs o :
  o = len a -> length b = length bs ->
  store_bytes (a ++ b ++ c) o bs = Some (a ++ bs ++ c).
Proof.
  intros -> Hb. unfold store_bytes.
  rewrite !len_app. pose proof (len_nonneg a). pose proof (len_nonneg c).
  assert (Hl : len b = len bs) by (unfold len; now rewrite Hb).
  replace (0 <=? len a) with true by (symmetry; apply Z.leb_le; lia).
  replace (len a + len bs <=? len a + (len b + len c)) with true
    by (symmetry; apply Z.leb_le; lia).
  cbn [andb]. unfold len. rewrite Nat2Z.id.
  rewrite firstn_app, firstn_all, Nat.sub_diag. cbn [firstn].
  rewrite app_nil_r, <- Hb.
  rewrite (app_assoc a b c), <- length_app, skipn_app, skipn_all,
    Nat.sub_diag.
  reflexivity.
Qed.

Lemma load_bytes_mid m a b c o n :
  m = a ++ b ++ c -> o = len a -> n = len b ->
  load_bytes (mkptr m o) n = Some b.
Proof.
  intros -> -> ->. unfold load_bytes, slice. cbn [obj off].
  rewrite !len_app. pose proof (len_nonneg a). pose proof (len_nonneg b).
  pose proof (len_nonneg c).
  replace (0 <=? len a) with true by (symmetry; apply Z.leb_le; lia).
  replace (0 <=? len b) with true by (symmetry; apply Z.leb_le; lia).
  replace (len a + len b <=? len a + (len b + len c)) with true
    by (symmetry; apply Z.leb_le; lia).
  cbn [andb]. unfold len. rewrite !Nat2Z.id.
  rewrite skipn_app, skipn_all, Nat.sub_diag. cbn [skipn app].
  rewrite firstn_app, firstn_all, Nat.sub_diag. cbn [firstn].
  now rewrite app_nil_r.
Qed.

Lemma load_u32_mid m a v c o :
  m = a ++ le32 v ++ c -> o = len a ->
  load_u32 (mkptr m o) = Some (wrap32 v).
Proof.
  intros Hm Ho. unfold load_u32.
  rewrite (load_bytes_mid m a (le32 v) c o 4 Hm Ho eq_refl).
  cbn [option_map]. now rewrite decode_le32_le32.
Qed.

(** The region [add_db_file] builds around a certificate. *)
Lemma synthesized_region (cert : list byte) :
  let L := len cert in
  let d0 := repeat x00 (Z.to_nat (L + 44)) in
  exists d1 d2 d3 d4,
    store_bytes d0 0 efi_guid_x509_cert = Some d1 /\
    store_bytes d1 16 (le32 (L + 44)) = Some d2 /\
    store_bytes d2 20 (le32 0) = Some d3 /\
    store_bytes d3 24 (le32 (L + 16)) = Some d4 /\
    store_bytes d4 44 cert
    = Some (header_bytes efi_guid_x509_cert (L + 44) 0 (L + 16)
            ++ zeros 16 ++ cert).
Proof.
  intros L d0. pose proof (len_nonneg cert) as HL. fold L in HL.
  assert (Hd0 : d0 = [] ++ zeros 16
                     ++ (zeros 4 ++ zeros 4 ++ zeros 4 ++ zeros 16
                         ++ zeros (length cert))).
  { unfold d0, zeros. rewrite <- !repeat_app. cbn [app]. f_equal.
    unfold L, len. lia. }
  exists (efi_guid_x509_cert
          ++ zeros 4 ++ zeros 4 ++ zeros 4 ++ zeros 16
          ++ zeros (length cert)).
  exists (efi_guid_x509_cert ++ le32 (L + 44)
          ++ zeros 4 ++ zeros 4 ++ zeros 16 ++ zeros (length cert)).
  exists ((efi_guid_x509_cert ++ le32 (L + 44)) ++ le32 0
          ++ zeros 4 ++ zeros 16 ++ zeros (length cert)).
  exists ((efi_guid_x509_cert ++ le32 (L + 44) ++ le32 0) ++ le32 (L + 16)
          ++ zeros 16 ++ zeros (length cert)).
  repeat split.
  - rewrite Hd0. now apply (store_bytes_mid []).
  - now apply store_bytes_mid.
  - rewrite (app_assoc efi_guid_x509_cert). now apply store_bytes_mid.
  - rewrite (app_assoc (efi_guid_x509_cert ++ le32 (L + 44))),
      <- (app_assoc efi_guid_x509_cert).
    now apply store_bytes_mid.
  - unfold header_bytes.
    replace ((efi_guid_x509_cert ++ le32 (L + 44) ++ le32 0)
             ++ le32 (L + 16) ++ zeros 16 ++ zeros (length cert))
      with ((efi_guid_x509_cert ++ le32 (L + 44) ++ le32 0
             ++ le32 (L + 16) ++ zeros 16)
            ++ zeros (length cert) ++ [])
      by (rewrite app_nil_r, <- !app_assoc; reflexivity).
    rewrite (store_bytes_mid _ (zeros (length cert)) [] cert 44).
    + rewrite app_nil_r, <- !app_assoc. reflexivity.
    + reflexivity.
    + unfold zeros. apply repeat_length.
Qed.

Lemma len_le32 v : len (le32 v) = 4.
Proof. reflexivity. Qed.

Lemma wrapped_certificate_stores cert :
  wrapped_certificate cert
  = header_bytes efi_guid_x509_cert (len cert + 44) 0 (len cert + 16)
    ++ zeros 16 ++ cert.
Proof.
  unfold wrapped_certificate, header_bytes, zeros,
    sizeof_EFI_SIGNATURE_LIST, sizeof_efi_guid_t.
  rewrite <- !app_assoc.
  replace (len cert + 28 + 16) with (len cert + 44) by lia. reflexivity.
Qed.

Lemma wrapped_certificate_len cert :
  len (wrapped_certificate cert)
  = len cert + sizeof_EFI_SIGNATURE_LIST + sizeof_efi_guid_t.
Proof.
  unfold wrapped_certificate. rewrite !len_app.
  unfold sizeof_EFI_SIGNATURE_LIST, sizeof_efi_guid_t.
  change (len efi_guid_x509_cert) with 16.
  change (len (repeat x00 16)) with 16.
  rewrite !len_le32. lia.
Qed.

Lemma wrapped_certificate_well_formed cert :
  12 < len cert -> len cert + 44 < 2 ^ 32 ->
  well_formed (len cert + sizeof_EFI_SIGNATURE_LIST + sizeof_efi_guid_t)
    (mkptr (wrapped_certificate cert) 0) [wrapped_group cert].
Proof.
  intros H12 H32. unfold sizeof_EFI_SIGNATURE_LIST, sizeof_efi_guid_t.
  assert (Hw : forall v, 0 <= v < 2 ^ 32 -> wrap32 v = v)
    by (intros; now apply Z.mod_small).
  apply wf_group.
  - lia.
  - unfold header_at, wrapped_group. cbn [g_header g_total g_skip g_entry].
    unfold sizeof_EFI_SIGNATURE_LIST, sizeof_efi_guid_t.
    unfold padd. cbn [obj off].
    split; [reflexivity |]. split; [| split].
    + replace (Some (len cert + 28 + 16))
        with (Some (wrap32 (len cert + 28 + 16)))
        by (f_equal; apply Hw; lia).
      eapply (load_u32_mid _ efi_guid_x509_cert); reflexivity.
    + change (Some 0) with (Some (wrap32 0)).
      eapply (load_u32_mid _ (efi_guid_x509_cert ++ le32 _));
        [unfold wrapped_certificate; rewrite <- app_assoc; reflexivity
        | reflexivity].
    + replace (Some (len cert + 16)) with (Some (wrap32 (len cert + 16)))
        by (f_equal; apply Hw; lia).
      eapply (load_u32_mid _ (efi_guid_x509_cert ++ le32 _ ++ le32 _));
        [unfold wrapped_certificate; rewrite <- !app_assoc; reflexivity
        | reflexivity].
  - cbn. unfold sizeof_EFI_SIGNATURE_LIST, sizeof_efi_guid_t. lia.
  - cbn. unfold sizeof_efi_guid_t. lia.
  - cbn. unfold sizeof_EFI_SIGNATURE_LIST, sizeof_efi_guid_t. lia.
  - apply wf_end. cbn. unfold sizeof_EFI_SIGNATURE_LIST, sizeof_efi_guid_t.
    lia.
Qed.

Lemma wrapped_group_entries cert :
  12 < len cert -> len cert + 44 < 2 ^ 32 ->
  entries [wrapped_group cert] = [wrapped_entry cert].
Proof.
  intros H12 H32. unfold entries, group_entries, entry_count.
  cbn [flat_map wrapped_group g_total g_skip g_entry].
  unfold sizeof_EFI_SIGNATURE_LIST, sizeof_efi_guid_t.
  replace ((len cert + 28 + 16 - 0) / (len cert + 16)) with 1
    by (apply (Z.div_unique _ _ 1 28); lia).
  change (Z.to_nat 1) with 1%nat. cbn [seq map app].
  unfold nth_entry, wrapped_entry, padd, wrapped_group.
  cbn [g_header g_skip g_entry obj off].
  unfold offsetof_SignatureType, offsetof_SignatureData,
    sizeof_EFI_SIGNATURE_LIST, sizeof_efi_guid_t, wrap32.
  rewrite Z.mod_small by lia.
  replace (len cert + 16 - 16) with (len cert) by lia.
  reflexivity.
Qed.

(** C8.  Loading a bare certificate of [L] bytes (more than 12, as any
    DER certificate is, and with [L + 44] below [2 ^ 32]) links a source
    whose region has [L] bytes plus the size of a group header plus the
    size of a type tag, and is one group: tagged X.509, with header-skip
    0, entry size [L] plus the size of a type tag and total size the whole
    region.  It is well formed, its only entry has the certificate as its
    payload, and walking it applies the predicate to that entry and no
    other. *)
Theorem add_db_file_wraps_certificate os ctx which dbfile fd cert :
  loads os fd (len cert) cert ->
  calloc_data os = Done tt ->
  12 < len cert ->
  len cert + 44 < 2 ^ 32 ->
  add_db_file os ctx which dbfile DB_CERT
  = ret (0, 0,
         set_chain which
           (mkdblist DB_CERT fd (basename_ os) cert (len cert)
              (mkptr (wrapped_certificate cert) 0)
              (len cert + sizeof_EFI_SIGNATURE_LIST + sizeof_efi_guid_t)
            :: chain which ctx) ctx) /\
  len (wrapped_certificate cert)
  = len cert + sizeof_EFI_SIGNATURE_LIST + sizeof_efi_guid_t /\
  well_formed (len cert + sizeof_EFI_SIGNATURE_LIST + sizeof_efi_guid_t)
    (mkptr (wrapped_certificate cert) 0) [wrapped_group cert] /\
  header_at (mkptr (wrapped_certificate cert) 0) (wrapped_group cert) /\
  g_total (wrapped_group cert) = len (wrapped_certificate cert) /\
  load_bytes (g_header (wrapped_group cert)) sizeof_efi_guid_t
  = Some efi_guid_x509_cert /\
  entries [wrapped_group cert] = [wrapped_entry cert] /\
  load_bytes (data (snd (wrapped_entry cert)))
    (len_ (snd (wrapped_entry cert)))
  = Some cert /\
  (forall check c pk fuel, (1 < fuel)%nat ->
     check_lists fuel check c pk
       (len cert + sizeof_EFI_SIGNATURE_LIST + sizeof_efi_guid_t)
       (mkptr (wrapped_certificate cert) 0)
     = first_match check c pk [wrapped_entry cert]).
Proof.
  intros Hl Hcal H12 H32.
  pose proof (wrapped_certificate_well_formed cert H12 H32) as Hwf.
  pose proof (wrapped_group_entries cert H12 H32) as Hes.
  refine (conj _ (conj _ (conj Hwf (conj _ (conj _ (conj _
            (conj Hes (conj _ _)))))))).
  - pose proof (loads_buffer _ _ _ _ Hl) as Hbuf.
    destruct Hl as (Hc & Ho & Hs1 & Hs2 & Hf & _).
    pose proof (len_nonneg cert) as H0.
    assert (HwL : wrap64 (len cert) = len cert)
      by (apply Z.mod_small; lia).
    assert (HwD : wrap64 (len cert + 28 + 16) = len cert + 44)
      by (unfold wrap64; rewrite Z.mod_small; lia).
    destruct (synthesized_region cert)
      as (d1 & d2 & d3 & d4 & S1 & S2 & S3 & S4 & S5).
    unfold add_db_file.
    rewrite Hc, Ho, Hs1, Hs2, Hf, Hbuf, Hcal, HwL.
    unfold sizeof_EFI_SIGNATURE_LIST, sizeof_efi_guid_t,
      offsetof_SignatureType, offsetof_SignatureListSize,
      offsetof_SignatureHeaderSize, offsetof_SignatureSize,
      offsetof_SignatureData.
    rewrite HwD.
    rewrite (bind_must_some _ _ _ S1), (bind_must_some _ _ _ S2),
      (bind_must_some _ _ _ S3), (bind_must_some _ _ _ S4).
    rewrite (bind_must_some _ _ _ (load_bytes_all cert)).
    change (28 + 16) with 44.
    rewrite (bind_must_some _ _ _ S5), <- wrapped_certificate_stores.
    unfold link_source.
    replace (len cert + 28 + 16) with (len cert + 44) by lia. reflexivity.
  - apply wrapped_certificate_len.
  - inversion Hwf; subst; assumption.
  - cbn [wrapped_group g_total]. now rewrite wrapped_certificate_len.
  - cbn [wrapped_group g_header].
    apply (load_bytes_mid _ [] efi_guid_x509_cert
             (skipn 16 (wrapped_certificate cert))); reflexivity.
  - cbn [wrapped_entry snd data len_].
    unfold sizeof_EFI_SIGNATURE_LIST, offsetof_SignatureData.
    apply (load_bytes_mid _
             (efi_guid_x509_cert ++ le32 (len cert + 28 + 16) ++ le32 0
              ++ le32 (len cert + 16) ++ repeat x00 16) cert []).
    + unfold wrapped_certificate, sizeof_EFI_SIGNATURE_LIST,
        sizeof_efi_guid_t.
      rewrite app_nil_r, <- !app_assoc. reflexivity.
    + reflexivity.
    + reflexivity.
  - intros check c pk fuel Hfuel. rewrite <- Hes.
    apply (check_lists_well_formed _ _ _ _ _ _ Hwf). cbn. lia.
Qed.

Lemma add_db_file_wraps_certificate_witness :
  loads (readable_file "cert.der" sample_certificate) 3
    (len sample_certificate) sample_certificate /\
  calloc_data (readable_file "cert.der" sample_certificate) = Done tt /\
  12 < len sample_certificate /\
  len sample_certificate + 44 < 2 ^ 32 /\
  entries [wrapped_group sample_certificate]
  = [wrapped_entry sample_certificate] /\
  load_bytes (data (snd (wrapped_entry sample_certificate)))
    (len_ (snd (wrapped_entry sample_certificate)))
  = Some sample_certificate.
Proof.
  assert (Hl : loads (readable_file "cert.der" sample_certificate) 3
                 (len sample_certificate) sample_certificate)
    by (repeat split; left; reflexivity).
  assert (Hc : calloc_data (readable_file "cert.der" sample_certificate)
               = Done tt) by reflexivity.
  assert (H12 : 12 < len sample_certificate)
    by (change (len sample_certificate) with 20; lia).
  assert (H32 : len sample_certificate + 44 < 2 ^ 32)
    by (change (len sample_certificate) with 20; lia).
  pose proof (add_db_file_wraps_certificate
                (readable_file "cert.der" sample_certificate)
                (context_of [] []) DB "cert.der" 3 sample_certificate
                Hl Hc H12 H32)
    as (_ & _ & _ & _ & _ & _ & Hes & Hld & _).
  exact (conj Hl (conj Hc (conj H12 (conj H32 (conj Hes Hld))))).
Defined.

(** At twelve bytes the bound of C8 is met: the entry count of the walk,
    [(12 + 44) / (12 + 16)], is 2. *)
Example twelve_byte_file_two_entries :
  entry_count (wrapped_group twelve_byte_file) = 2.
Proof. reflexivity. Qed.

(** ** The bootstrap *)

Lemma add_db_file_efivar os ctx which path :
  (exists d, db_type d = DB_EFIVAR /\
             add_db_file os ctx which path DB_EFIVAR
             = ret (0, 0, set_chain which (d :: chain which ctx) ctx)) \/
  (exists e, add_db_file os ctx which path DB_EFIVAR = ret (-1, e, ctx)).
Proof.
  unfold add_db_file, link_source.
  destruct (calloc_dblist os); [| right; eexists; reflexivity].
  destruct (open_ os); [| right; eexists; reflexivity].
  destruct (strdup_dbfile os); [| right; eexists; reflexivity].
  destruct (strdup_basename os); [| right; eexists; reflexivity].
  destruct (fstat_ os); [| right; eexists; reflexivity].
  destruct (mmap_ os); [| destruct (read_file_ os)];
    try (right; eexists; reflexivity);
    left; eexists; (split; [| reflexivity]); reflexivity.
Qed.

Lemma load_or_exit_attempt world ctx which path diagnostic :
  exists r,
    attempt world ctx which path r /\
    load_or_exit world ctx which path diagnostic
    = match r with
      | Some ctx' => ret ctx'
      | None => ([Stderr (diagnostic path)], Exit 1)
      end.
Proof.
  unfold load_or_exit.
  destruct (add_db_file_efivar (world path) ctx which path)
    as [(d & Hd & Hadd) | (e & Hadd)].
  - exists (Some (set_chain which (d :: chain which ctx) ctx)).
    split; [now apply attempt_loaded |].
    rewrite Hadd, bind_ret_l. reflexivity.
  - destruct (Z.eqb_spec e ENOENT) as [-> | Hne].
    + exists (Some ctx). split; [now apply attempt_missing |].
      rewrite Hadd, bind_ret_l. reflexivity.
    + exists None. split; [now apply (attempt_fatal _ _ _ _ e) |].
      rewrite Hadd, bind_ret_l.
      change (-1 <? 0) with true. cbn [andb].
      replace (e =? ENOENT) with false
        by (symmetry; now apply Z.eqb_neq).
      reflexivity.
Qed.

Lemma warn_db_then {A} ctx (m : M A) :
  ((match db ctx with
    | [] => say (Stderr NoKeyDatabase)
    | _ => ret tt
    end) ;;; m)
  = (warn_no_db ctx ++ output m, result m).
Proof.
  unfold warn_no_db. destruct m as [o r], (db ctx); reflexivity.
Qed.

Lemma warn_dbx_then {A} ctx (m : M A) :
  ((match dbx ctx with
    | [] => say (Stderr NoRevocationDatabase)
    | _ => ret tt
    end) ;;; m)
  = (warn_no_dbx ctx ++ output m, result m).
Proof.
  unfold warn_no_dbx. destruct m as [o r], (dbx ctx); reflexivity.
Qed.

Lemma attempt_other_chain world ctx which path ctx' :
  attempt world ctx which path (Some ctx') ->
  match which with
  | DB => dbx ctx' = dbx ctx
  | DBX => db ctx' = db ctx
  end.
Proof.
  inversion 1; subst; destruct which; reflexivity.
Qed.

(** C9.  With the system databases disabled [init_cert_db] leaves the
    context as it is, and every query of an empty chain answers
    NOT_FOUND.  Enabled, it attempts db and MokListRT for the allow chain
    and then dbx and MokListXRT for the deny chain: a source that loads
    goes to the head of its chain, one that is missing is passed over, and
    at the first load that fails otherwise the process exits with status
    1 after a diagnostic that names the path; the warning about an empty
    allow chain is printed after the two allow loads when that chain is
    empty, the one about the deny chain after the two deny loads when
    that one is, each whatever the other chain holds. *)
Theorem init_cert_db_bootstrap world ctx :
  init_cert_db world ctx 0 = ret ctx /\
  (forall fuel which check data_ datalen match_,
     chain which ctx = [] ->
     check_db fuel which ctx check data_ datalen match_
     = ret (NOT_FOUND, match_)) /\
  (forall use_system_dbs,
     use_system_dbs <> 0 ->
     exists r1,
       attempt world ctx DB DB_PATH r1 /\
       match r1 with
       | None =>
           init_cert_db world ctx use_system_dbs
           = ([Stderr (CouldNotAddKeyDatabase DB_PATH)], Exit 1)
       | Some c1 =>
       exists r2,
         attempt world c1 DB MOK_PATH r2 /\
         match r2 with
         | None =>
             init_cert_db world ctx use_system_dbs
             = ([Stderr (CouldNotAddKeyDatabase MOK_PATH)], Exit 1)
         | Some c2 =>
         exists r3,
           attempt world c2 DBX DBX_PATH r3 /\
           match r3 with
           | None =>
               init_cert_db world ctx use_system_dbs
               = (warn_no_db c2
                  ++ [Stderr (CouldNotAddRevocationDatabase DBX_PATH)],
                  Exit 1)
           | Some c3 =>
           exists r4,
             attempt world c3 DBX MOKX_PATH r4 /\
             match r4 with
             | None =>
                 init_cert_db world ctx use_system_dbs
                 = (warn_no_db c2
                    ++ [Stderr (CouldNotAddKeyDatabase MOKX_PATH)],
                    Exit 1)
             | Some c4 =>
                 init_cert_db world ctx use_system_dbs
                 = (warn_no_db c4 ++ warn_no_dbx c4, Ok c4) /\
                 dbx c2 = dbx ctx /\ db c4 = db c2
             end
           end
         end
       end).
Proof.
  refine (conj eq_refl (conj _ _)).
  - intros fuel which check data_ datalen match_ Hempty.
    unfold check_db. rewrite Hempty. cbn [check_chain].
    now rewrite bind_ret_l.
  - intros use Huse. unfold init_cert_db.
    replace (use =? 0) with false by (symmetry; now apply Z.eqb_neq).
    destruct (load_or_exit_attempt world ctx DB DB_PATH
                CouldNotAddKeyDatabase) as (r1 & A1 & ->).
    exists r1. split; [exact A1 |].
    destruct r1 as [c1 |]; [| reflexivity]. rewrite bind_ret_l.
    destruct (load_or_exit_attempt world c1 DB MOK_PATH
                CouldNotAddKeyDatabase) as (r2 & A2 & ->).
    exists r2. split; [exact A2 |].
    destruct r2 as [c2 |]; [| reflexivity]. rewrite bind_ret_l.
    rewrite warn_db_then.
    destruct (load_or_exit_attempt world c2 DBX DBX_PATH
                CouldNotAddRevocationDatabase) as (r3 & A3 & ->).
    exists r3. split; [exact A3 |].
    destruct r3 as [c3 |]; [| reflexivity]. rewrite bind_ret_l.
    destruct (load_or_exit_attempt world c3 DBX MOKX_PATH
                CouldNotAddKeyDatabase) as (r4 & A4 & ->).
    exists r4. split; [exact A4 |].
    destruct r4 as [c4 |]; [| reflexivity]. rewrite bind_ret_l.
    rewrite warn_dbx_then. cbn [output result fst snd ret].
    rewrite app_nil_r.
    pose proof (attempt_other_chain _ _ _ _ _ A1) as E1.
    pose proof (attempt_other_chain _ _ _ _ _ A2) as E2.
    pose proof (attempt_other_chain _ _ _ _ _ A3) as E3.
    pose proof (attempt_other_chain _ _ _ _ _ A4) as E4.
    cbn in E1, E2, E3, E4.
    assert (Hdb : db c4 = db c2) by congruence.
    split; [| split; [congruence | exact Hdb]].
    unfold warn_no_db. now rewrite Hdb.
Qed.

Lemma init_cert_db_bootstrap_witness :
  1 <> 0 /\
  init_cert_db no_variable_present (context_of [] []) 0
  = ret (context_of [] []) /\
  exists r1,
    attempt no_variable_present (context_of [] []) DB DB_PATH r1.
Proof.
  assert (H1 : 1 <> 0) by discriminate.
  destruct (init_cert_db_bootstrap no_variable_present (context_of [] []))
    as (Hoff & _ & Hon).
  destruct (Hon 1 H1) as (r1 & A1 & _).
  exact (conj H1 (conj Hoff (ex_intro _ r1 A1))).
Defined.

(** The bootstrap on three machines: no variable present, db unreadable,
    and all four variables present. *)
Example init_cert_db_no_variable :
  init_cert_db no_variable_present (context_of [] []) 1
  = ([Stderr NoKeyDatabase; Stderr NoRevocationDatabase],
     Ok (context_of [] [])).
Proof. vm_compute. reflexivity. Qed.

Example init_cert_db_unreadable :
  init_cert_db
    (fun path => if String.eqb path DBX_PATH then forbidden_file
                 else missing_file)
    (context_of [] []) 1
  = ([Stderr NoKeyDatabase;
      Stderr (CouldNotAddRevocationDatabase DBX_PATH)], Exit 1).
Proof. vm_compute. reflexivity. Qed.

Example init_cert_db_all_present :
  exists c,
    init_cert_db all_variables_present (context_of [] []) 1 = ([], Ok c) /\
    map db_path (db c)
    = ["MokListRT-605dab50-e046-4300-abb6-3dd810dd8b23"%string;
       "db-d719b2cb-3d3a-4596-a3bc-dad00e67656f"%string] /\
    map db_path (dbx c)
    = ["MokListXRT-605dab50-e046-4300-abb6-3dd810dd8b23"%string;
       "dbx-d719b2cb-3d3a-4596-a3bc-dad00e67656f"%string] /\
    result (check_db_hash 3 DB c) = Ok FOUND.
Proof. eexists. repeat split; vm_compute; reflexivity. Qed.

(** * Further properties *)

(** ** What a load changes *)

Lemma bind_raise {A B} (f : fault) (k : A -> M B) :
  bind (raise f) k = raise f.
Proof. reflexivity. Qed.

Lemma add_db_file_cases os ctx which dbfile type :
  (exists e, add_db_file os ctx which dbfile type = ret (-1, e, ctx)) \/
  (exists d, db_type d = type /\
             add_db_file os ctx which dbfile type
             = ret (0, 0, set_chain which (d :: chain which ctx) ctx)) \/
  (type = DB_CERT /\
   add_db_file os ctx which dbfile type = raise OutOfBounds).
Proof.
  unfold add_db_file, link_source.
  destruct (calloc_dblist os); [| left; eexists; reflexivity].
  destruct (open_ os); [| left; eexists; reflexivity].
  destruct (strdup_dbfile os); [| left; eexists; reflexivity].
  destruct (strdup_basename os); [| left; eexists; reflexivity].
  destruct (fstat_ os); [| left; eexists; reflexivity].
  destruct (match mmap_ os with Done m => Done m | Failed _ => read_file_ os
            end); [| left; eexists; reflexivity].
  destruct type.
  - right; left. eexists; split; [| reflexivity]; reflexivity.
  - right; left. eexists; split; [| reflexivity]; reflexivity.
  - destruct (calloc_data os); [| left; eexists; reflexivity].
    repeat match goal with
      | |- context [must ?o] =>
          destruct o; cbn [must];
          [rewrite bind_ret_l | right; right; split; reflexivity]
      end.
    right; left. eexists; split; [| reflexivity]; reflexivity.
Qed.

Lemma set_chain_other which c ctx :
  chain (other_chain which) (set_chain which c ctx)
  = chain (other_chain which) ctx.
Proof. destruct which; reflexivity. Qed.

Lemma set_chain_same which c ctx : chain which (set_chain which c ctx) = c.
Proof. destruct which; reflexivity. Qed.

Lemma set_chain_digests which c ctx :
  pe_digest0 (set_chain which c ctx) = pe_digest0 ctx /\
  pe_digest1 (set_chain which c ctx) = pe_digest1 ctx.
Proof. destruct which; split; reflexivity. Qed.

(** X1.  Whatever [add_db_file] returns, it has printed nothing, the
    chain it was not asked to extend and the two digests of the context
    are as they were, and the chain it was asked to extend is the old
    chain with at most one source in front: exactly one when it returns
    0, none when it returns -1. *)
Theorem add_db_file_touches_one_chain os ctx which dbfile type out rc e
  ctx' :
  add_db_file os ctx which dbfile type = (out, Ok (rc, e, ctx')) ->
  out = [] /\
  chain (other_chain which) ctx' = chain (other_chain which) ctx /\
  pe_digest0 ctx' = pe_digest0 ctx /\
  pe_digest1 ctx' = pe_digest1 ctx /\
  exists new,
    chain which ctx' = new ++ chain which ctx /\
    (rc = 0 -> exists d, new = [d] /\ db_type d = type) /\
    (rc = -1 -> new = []) /\
    (rc = 0 \/ rc = -1).
Proof.
  intros Hadd.
  destruct (add_db_file_cases os ctx which dbfile type)
    as [(e0 & H) | [(d & Hd & H) | (_ & H)]];
    rewrite H in Hadd; unfold ret, raise in Hadd;
    try discriminate Hadd; injection Hadd as <- <- <- <-.
  - repeat split; try reflexivity.
    exists []. repeat split; try reflexivity; try discriminate.
    now right.
  - split; [reflexivity |]. split; [apply set_chain_other |].
    split; [apply set_chain_digests |]. split; [apply set_chain_digests |].
    exists [d]. rewrite set_chain_same. repeat split.
    + intros _. now exists d.
    + discriminate.
    + now left.
Qed.

Lemma add_db_file_touches_one_chain_witness :
  add_db_file (readable_file "db" two_group_region) (context_of [] []) DBX
    DBX_PATH DB_FILE
  = ([], Ok (0, 0,
             set_chain DBX [source_of "db" two_group_region]
               (context_of [] []))) /\
  chain DB
    (set_chain DBX [source_of "db" two_group_region] (context_of [] []))
  = chain DB (context_of [] []).
Proof.
  assert (H : add_db_file (readable_file "db" two_group_region)
                (context_of [] []) DBX DBX_PATH DB_FILE
              = ([], Ok (0, 0,
                         set_chain DBX [source_of "db" two_group_region]
                           (context_of [] []))))
    by (vm_compute; reflexivity).
  split; [exact H |].
  exact (proj1 (proj2 (add_db_file_touches_one_chain _ _ DBX _ _ _ _ _ _ H))).
Defined.

(** X2.  [add_cert_db] and [add_cert_dbx] never fault and build nothing:
    they return -1 with the context unchanged, or 0 with a plain-file
    source, whose region is the whole buffer, at the head of the allow
    chain for the first and of the deny chain for the second.
    [add_cert_file], when it returns 0, has put a synthesized-certificate
    source at the head of the allow chain and left the deny chain
    alone. *)
Theorem add_cert_wrappers_route os ctx filename :
  ((exists e, add_cert_db os ctx filename = ret (-1, e, ctx)) \/
   (exists d,
      db_type d = DB_FILE /\ db_data d = mkptr (db_map d) 0 /\
      db_datalen d = db_size d /\
      add_cert_db os ctx filename
      = ret (0, 0, mkctx (d :: db ctx) (dbx ctx) (pe_digest0 ctx)
                     (pe_digest1 ctx)))) /\
  ((exists e, add_cert_dbx os ctx filename = ret (-1, e, ctx)) \/
   (exists d,
      db_type d = DB_FILE /\ db_data d = mkptr (db_map d) 0 /\
      db_datalen d = db_size d /\
      add_cert_dbx os ctx filename
      = ret (0, 0, mkctx (db ctx) (d :: dbx ctx) (pe_digest0 ctx)
                     (pe_digest1 ctx)))) /\
  (forall out e ctx',
     add_cert_file os ctx filename = (out, Ok (0, e, ctx')) ->
     exists d, db_type d = DB_CERT /\ db ctx' = d :: db ctx /\
               dbx ctx' = dbx ctx).
Proof.
  refine (conj _ (conj _ _)).
  - unfold add_cert_db, add_db_file, link_source.
    destruct (calloc_dblist os); [| left; eexists; reflexivity].
    destruct (open_ os); [| left; eexists; reflexivity].
    destruct (strdup_dbfile os); [| left; eexists; reflexivity].
    destruct (strdup_basename os); [| left; eexists; reflexivity].
    destruct (fstat_ os); [| left; eexists; reflexivity].
    destruct (match mmap_ os with Done m => Done m | Failed _ => read_file_ os
              end); [| left; eexists; reflexivity].
    right. eexists.
    split; [| split; [| split]]; [ | | | reflexivity]; reflexivity.
  - unfold add_cert_dbx, add_db_file, link_source.
    destruct (calloc_dblist os); [| left; eexists; reflexivity].
    destruct (open_ os); [| left; eexists; reflexivity].
    destruct (strdup_dbfile os); [| left; eexists; reflexivity].
    destruct (strdup_basename os); [| left; eexists; reflexivity].
    destruct (fstat_ os); [| left; eexists; reflexivity].
    destruct (match mmap_ os with Done m => Done m | Failed _ => read_file_ os
              end); [| left; eexists; reflexivity].
    right. eexists.
    split; [| split; [| split]]; [ | | | reflexivity]; reflexivity.
  - intros out e ctx' Hadd. unfold add_cert_file in Hadd.
    apply add_db_file_links in Hadd as [[Hrc _] | [_ (d & Hd & ->)]];
      [discriminate Hrc |].
    exists d. repeat split. exact Hd.
Qed.

Lemma add_cert_wrappers_route_witness :
  add_cert_file (readable_file "cert.der" sample_certificate)
    (context_of [] []) "cert.der"
  = ([], Ok (0, 0,
             context_of
               [mkdblist DB_CERT 3 "cert.der" sample_certificate 20
                  (mkptr (wrapped_certificate sample_certificate) 0) 64]
               [])) /\
  exists d, db_type d = DB_CERT /\
            db (context_of
                  [mkdblist DB_CERT 3 "cert.der" sample_certificate 20
                     (mkptr (wrapped_certificate sample_certificate) 0) 64]
                  [])
            = d :: db (context_of [] []) /\
            dbx (context_of
                   [mkdblist DB_CERT 3 "cert.der" sample_certificate 20
                      (mkptr (wrapped_certificate sample_certificate) 0) 64]
                   [])
            = dbx (context_of [] []).
Proof.
  assert (H : add_cert_file (readable_file "cert.der" sample_certificate)
                (context_of [] []) "cert.der"
              = ([], Ok (0, 0,
                         context_of
                           [mkdblist DB_CERT 3 "cert.der" sample_certificate
                              20
                              (mkptr (wrapped_certificate sample_certificate)
                                 0) 64]
                           [])))
    by (vm_compute; reflexivity).
  split; [exact H |].
  exact (proj2 (proj2 (add_cert_wrappers_route
                         (readable_file "cert.der" sample_certificate)
                         (context_of [] []) "cert.der")) _ _ _ H).
Defined.

(** ** What a search writes, and when it ends *)

(** X3.  [check_db] writes through [match] only when it returns FOUND:
    when it returns NOT_FOUND what [match] points to is as it was, a null
    [match] is never written through, and FOUND with a [match] that is
    not null leaves an entry there. *)
Theorem check_db_writes_match_on_found fuel which ctx check data_ datalen
  match_ out status match' :
  check_db fuel which ctx check data_ datalen match_
  = (out, Ok (status, match')) ->
  (status = NOT_FOUND -> match' = match_) /\
  (match_ = None -> match' = None) /\
  (status = FOUND -> match_ <> None -> exists sig, match' = Some sig).
Proof.
  unfold check_db.
  destruct (check_chain fuel which check ctx _ (chain which ctx))
    as [o [[sig |] | f | c | ]]; cbn; try discriminate.
  - intros [= <- <- <-]. split; [discriminate |]. split.
    + now intros ->.
    + intros _ Hm. destruct match_; [now exists sig | contradiction].
  - intros [= <- <- <-]. split; [reflexivity |]. split; [trivial |].
    discriminate.
Qed.

Lemma check_db_writes_match_on_found_witness :
  check_db 3 DB (context_of [source_of "db" two_group_region] []) check_hash
    null_ptr 0 None
  = ([Stdout (Searching DB "db")], Ok (FOUND, None)) /\
  @None SECItem = None.
Proof.
  assert (H : check_db 3 DB
                (context_of [source_of "db" two_group_region] []) check_hash
                null_ptr 0 None
              = ([Stdout (Searching DB "db")], Ok (FOUND, None)))
    by (vm_compute; reflexivity).
  split; [exact H |].
  exact (proj1 (proj2 (check_db_writes_match_on_found _ _ _ _ _ _ _ _ _ _ H))
           eq_refl).
Defined.

Lemma check_entries_rejected check ctx pk certlist ssz n :
  rejects_all check ctx pk ->
  forall cert,
    result (check_entries check ctx pk certlist ssz n cert) = Ok None.
Proof.
  intros Hrej. induction n as [| n IH]; intros cert; cbn [check_entries];
    [reflexivity |].
  rewrite result_bind, Hrej. apply IH.
Qed.

Lemma check_entries_fuel_free check ctx pk certlist ssz n :
  (forall sig sigtype, result (check ctx sig sigtype pk) <> OutOfFuel) ->
  forall cert,
    result (check_entries check ctx pk certlist ssz n cert) <> OutOfFuel.
Proof.
  intros Hc. induction n as [| n IH]; intros cert; cbn [check_entries];
    [discriminate |].
  rewrite result_bind.
  destruct (result (check ctx _ _ pk)) as [[|] | | |] eqn:E;
    try discriminate; [apply IH |].
  now apply Hc in E.
Qed.

Lemma padd_zero p : padd p 0 = p.
Proof. destruct p as [m o]. unfold padd; cbn. now rewrite Z.add_0_r. Qed.

(** X4.  The [while] loop of [check_db] over a source of [dbsize] bytes
    runs at most [dbsize] times, unless it comes to a header whose total
    size is 0: if more fuel than [dbsize] does not suffice (the predicate
    itself not running out), then the walk reaches, with bytes left, a
    header that declares a total size of 0. *)
Theorem check_lists_ends_or_zero_total fuel check ctx pk :
  (forall sig sigtype, result (check ctx sig sigtype pk) <> OutOfFuel) ->
  forall dbsize certlist,
    (Z.to_nat dbsize < fuel)%nat ->
    result (check_lists fuel check ctx pk dbsize certlist) = OutOfFuel ->
    exists d p,
      walk_reaches dbsize certlist d p /\ 0 < d /\
      load_u32 (padd p offsetof_SignatureListSize) = Some 0.
Proof.
  intros Hc. induction fuel as [| fuel IH]; intros dbsize certlist Hfuel;
    [lia |].
  cbn [check_lists].
  destruct (Z.ltb_spec 0 dbsize) as [Hpos |]; [| discriminate].
  destruct (load_u32 (padd certlist offsetof_SignatureListSize))
    as [total |] eqn:Ht; cbn [must]; [| discriminate].
  rewrite bind_ret_l.
  destruct (Z.leb_spec total dbsize) as [Hle |]; [| discriminate].
  destruct (load_u32 (padd certlist offsetof_SignatureHeaderSize))
    as [skip |]; cbn [must]; [| discriminate].
  rewrite bind_ret_l.
  destruct (load_u32 (padd certlist offsetof_SignatureSize))
    as [entry |]; cbn [must]; [| discriminate].
  rewrite bind_ret_l.
  destruct (entry =? 0); [discriminate |].
  rewrite result_bind.
  pose proof (check_entries_fuel_free check ctx pk certlist entry
                (Z.to_nat (wrap32 (total - skip) / entry)) Hc
                (padd certlist (sizeof_EFI_SIGNATURE_LIST + skip))) as Hne.
  destruct (result (check_entries _ _ _ _ _ _ _)) as [[sig |] | | |];
    try discriminate; [| contradiction].
  intros Hout.
  pose proof (load_u32_range _ _ Ht) as Hr.
  destruct (Z.eq_dec total 0) as [-> | Hnz].
  - exists dbsize, certlist. split; [constructor | now split].
  - destruct (IH (dbsize - total) (padd certlist total) ltac:(lia) Hout)
      as (d & p & Hreach & Hd & Hz).
    exists d, p. split; [| now split].
    now apply (reach_next dbsize certlist total).
Qed.

Lemma check_lists_ends_or_zero_total_witness :
  (forall sig sigtype,
     result (never_found (context_of [] []) sig sigtype
               (mkSECItem null_ptr 0)) <> OutOfFuel) /\
  (Z.to_nat 28 < 29)%nat /\
  exists d p,
    walk_reaches 28 (mkptr zero_total_size_region 0) d p /\ 0 < d /\
    load_u32 (padd p offsetof_SignatureListSize) = Some 0.
Proof.
  assert (Hc : forall sig sigtype,
             result (never_found (context_of [] []) sig sigtype
                       (mkSECItem null_ptr 0)) <> OutOfFuel)
    by (intros; discriminate).
  assert (Hfuel : (Z.to_nat 28 < 29)%nat) by (cbn; lia).
  assert (Hout : result (check_lists 29 never_found (context_of [] [])
                           (mkSECItem null_ptr 0) 28
                           (mkptr zero_total_size_region 0)) = OutOfFuel)
    by (rewrite zero_total_size_never_ends; reflexivity).
  exact (conj Hc (conj Hfuel
           (check_lists_ends_or_zero_total 29 never_found (context_of [] [])
              (mkSECItem null_ptr 0) Hc 28
              (mkptr zero_total_size_region 0) Hfuel Hout))).
Defined.

(** X5.  A header that declares a total size of 0 (with a positive entry
    size, and at least one byte left) stops the search for good: with a
    predicate that rejects every entry the loop of [check_db] never ends,
    whatever the fuel. *)
Theorem check_lists_zero_total_never_ends check ctx pk dbsize certlist skip
  entry :
  0 < dbsize ->
  load_u32 (padd certlist offsetof_SignatureListSize) = Some 0 ->
  load_u32 (padd certlist offsetof_SignatureHeaderSize) = Some skip ->
  load_u32 (padd certlist offsetof_SignatureSize) = Some entry ->
  0 < entry ->
  rejects_all check ctx pk ->
  forall fuel,
    result (check_lists fuel check ctx pk dbsize certlist) = OutOfFuel.
Proof.
  intros Hpos Ht Hk Hn He Hrej fuel.
  induction fuel as [| fuel IH]; [reflexivity |].
  cbn [check_lists].
  replace (0 <? dbsize) with true by (symmetry; apply Z.ltb_lt; lia).
  rewrite (bind_must_some _ _ _ Ht).
  replace (0 <=? dbsize) with true by (symmetry; apply Z.leb_le; lia).
  rewrite (bind_must_some _ _ _ Hk), (bind_must_some _ _ _ Hn).
  replace (entry =? 0) with false by (symmetry; apply Z.eqb_neq; lia).
  rewrite result_bind, (check_entries_rejected _ _ _ _ _ _ Hrej).
  now rewrite Z.sub_0_r, padd_zero.
Qed.

Lemma check_lists_zero_total_never_ends_witness :
  0 < 28 /\
  load_u32 (padd (mkptr zero_total_size_region 0)
              offsetof_SignatureListSize) = Some 0 /\
  0 < 1 /\
  rejects_all never_found (context_of [] []) (mkSECItem null_ptr 0) /\
  result (check_lists 1000 never_found (context_of [] [])
            (mkSECItem null_ptr 0) 28 (mkptr zero_total_size_region 0))
  = OutOfFuel.
Proof.
  assert (Hpos : 0 < 28) by lia.
  assert (Ht : load_u32 (padd (mkptr zero_total_size_region 0)
                           offsetof_SignatureListSize) = Some 0)
    by (vm_compute; reflexivity).
  assert (Hk : load_u32 (padd (mkptr zero_total_size_region 0)
                           offsetof_SignatureHeaderSize) = Some 0)
    by (vm_compute; reflexivity).
  assert (Hn : load_u32 (padd (mkptr zero_total_size_region 0)
                           offsetof_SignatureSize) = Some 1)
    by (vm_compute; reflexivity).
  assert (He : 0 < 1) by lia.
  assert (Hrej : rejects_all never_found (context_of [] [])
                   (mkSECItem null_ptr 0))
    by (intros sig sigtype; reflexivity).
  exact (conj Hpos (conj Ht (conj He (conj Hrej
           (check_lists_zero_total_never_ends never_found (context_of [] [])
              (mkSECItem null_ptr 0) 28 (mkptr zero_total_size_region 0)
              0 1 Hpos Ht Hk Hn He Hrej 1000%nat))))).
Defined.

(** ** The window of [find_cert_times] *)

Lemma fold_cert_times_step w c :
  fst w <= fst (fold_cert_times w c) /\
  snd (fold_cert_times w c) <= snd w /\
  fst (CERT_GetCertTimes c cert_times_default)
  <= fst (fold_cert_times w c) /\
  snd (fold_cert_times w c)
  <= snd (CERT_GetCertTimes c cert_times_default).
Proof.
  destruct w as [nB nA]. unfold fold_cert_times, cert_times_default.
  destruct (CERT_GetCertTimes c (0, 140737488355327)) as [nb na].
  cbn [fst snd].
  destruct (Z.ltb_spec nB nb), (Z.ltb_spec na nA); lia.
Qed.

Lemma fold_cert_times_narrows certs :
  forall w,
    fst w <= fst (fold_left fold_cert_times certs w) /\
    snd (fold_left fold_cert_times certs w) <= snd w.
Proof.
  induction certs as [| c certs IH]; intros w; cbn [fold_left];
    [split; apply Z.le_refl |].
  pose proof (fold_cert_times_step w c) as (H1 & H2 & _).
  pose proof (IH (fold_cert_times w c)) as (H3 & H4).
  split; [exact (Z.le_trans _ _ _ H1 H3) | exact (Z.le_trans _ _ _ H4 H2)].
Qed.

Lemma fold_cert_times_each certs c :
  In c certs ->
  forall w,
    fst (CERT_GetCertTimes c cert_times_default)
    <= fst (fold_left fold_cert_times certs w) /\
    snd (fold_left fold_cert_times certs w)
    <= snd (CERT_GetCertTimes c cert_times_default).
Proof.
  induction certs as [| c' certs IH]; intros Hin w; [destruct Hin |].
  cbn [fold_left]. destruct Hin as [-> | Hin].
  - pose proof (fold_cert_times_step w c) as (_ & _ & H3 & H4).
    pose proof (fold_cert_times_narrows certs (fold_cert_times w c))
      as (H5 & H6).
    split; [exact (Z.le_trans _ _ _ H3 H5) | exact (Z.le_trans _ _ _ H6 H4)].
  - now apply IH.
Qed.

(** X6.  [find_cert_times] either fails, and then sets the two bounds to
    0 and [PRTime_MAX] whatever they were (the message is not signed
    data, there is no certificate database, or the import fails), or only
    narrows them: the lower bound does not go down and the upper bound
    does not go up, whatever [CERT_GetCertTimes] leaves for each
    certificate, and the result lies within what it left for every
    certificate looked at. *)
Theorem find_cert_times_resets_or_narrows nss cinfo notBefore notAfter :
  (is_signed_data cinfo = false \/ CERT_GetDefaultCertDB nss = false \/
   CERT_ImportCerts nss (rawCerts cinfo) = None ->
   find_cert_times nss cinfo notBefore notAfter = (0, PRTime_MAX)) /\
  (forall raws certs,
     is_signed_data cinfo = true ->
     CERT_GetDefaultCertDB nss = true ->
     rawCerts cinfo = Some raws ->
     CERT_ImportCerts nss (rawCerts cinfo) = Some certs ->
     notBefore <= fst (find_cert_times nss cinfo notBefore notAfter) /\
     snd (find_cert_times nss cinfo notBefore notAfter) <= notAfter /\
     forall c, In c (firstn (length raws) certs) ->
       fst (CERT_GetCertTimes c cert_times_default)
       <= fst (find_cert_times nss cinfo notBefore notAfter) /\
       snd (find_cert_times nss cinfo notBefore notAfter)
       <= snd (CERT_GetCertTimes c cert_times_default)) /\
  (rawCerts cinfo = None ->
   is_signed_data cinfo = true ->
   CERT_GetDefaultCertDB nss = true ->
   CERT_ImportCerts nss None <> None ->
   find_cert_times nss cinfo notBefore notAfter = (notBefore, notAfter)).
Proof.
  refine (conj _ (conj _ _)).
  - unfold find_cert_times.
    intros [-> | [H | H]]; [reflexivity | |].
    + rewrite H. now destruct (is_signed_data cinfo).
    + rewrite H.
      now destruct (is_signed_data cinfo), (CERT_GetDefaultCertDB nss).
  - intros raws certs Hsd Hdb Hraw Himp. unfold find_cert_times.
    rewrite Hsd, Hdb, Himp, Hraw. cbn [negb].
    pose proof (fold_cert_times_narrows (firstn (length raws) certs)
                  (notBefore, notAfter)) as Hn.
    cbn [fst snd] in Hn. split; [apply Hn |]. split; [apply Hn |].
    intros c Hin. now apply fold_cert_times_each.
  - intros Hraw Hsd Hdb Himp. unfold find_cert_times.
    rewrite Hsd, Hdb, Hraw. cbn [negb].
    destruct (CERT_ImportCerts nss None); [reflexivity | contradiction].
Qed.

Lemma find_cert_times_resets_or_narrows_witness :
  is_signed_data (sample_cinfo 2 None) = true /\
  CERT_GetDefaultCertDB
    (sample_nss (sample_cinfo 2 None)
       [valid_between 10 50; valid_between 20 90] true (fun _ => true))
  = true /\
  5 <= fst (find_cert_times
              (sample_nss (sample_cinfo 2 None)
                 [valid_between 10 50; valid_between 20 90] true
                 (fun _ => true))
              (sample_cinfo 2 None) 5 70).
Proof.
  split; [reflexivity |]. split; [reflexivity |].
  exact (proj1 (proj1 (proj2 (find_cert_times_resets_or_narrows
                  (sample_nss (sample_cinfo 2 None)
                     [valid_between 10 50; valid_between 20 90] true
                     (fun _ => true))
                  (sample_cinfo 2 None) 5 70))
           [[x30]; [x30]] [valid_between 10 50; valid_between 20 90]
           eq_refl eq_refl eq_refl eq_refl)).
Defined.

(** X7.  A certificate whose times NSS cannot read is counted as valid
    from 0 to [0x7fffffffffff] microseconds, not to [PRTime_MAX]: with
    such a certificate among those of the message, the upper bound of the
    window [check_cert] works with is at most [0x7fffffffffff], and so is
    the evaluation time it gives the verifier. *)
Theorem unreadable_times_bound_window nss cinfo raws certs c :
  is_signed_data cinfo = true ->
  CERT_GetDefaultCertDB nss = true ->
  rawCerts cinfo = Some raws ->
  CERT_ImportCerts nss (rawCerts cinfo) = Some certs ->
  In c (firstn (length raws) certs) ->
  CERT_GetCertTimes c cert_times_default = cert_times_default ->
  snd (signing_window nss cinfo) <= 0x7fffffffffff /\
  (fst (signing_window nss cinfo) <= snd (signing_window nss cinfo) ->
   evaluation_time (signing_window nss cinfo) <= 0x7fffffffffff).
Proof.
  intros Hsd Hdb Hraw Himp Hin Hc.
  assert (Hup : snd (signing_window nss cinfo) <= 0x7fffffffffff).
  { unfold signing_window, find_cert_times.
    rewrite Hsd, Hdb, Himp, Hraw. cbn [negb].
    pose proof (fold_cert_times_each _ _ Hin (0, PRTime_MAX)) as (_ & Hs).
    rewrite Hc in Hs. cbn [snd cert_times_default] in Hs.
    destruct (fold_left fold_cert_times _ _) as [nB nA]. cbn [snd] in Hs.
    unfold PRTime, PRTime_MAX in *.
    destruct (Z.ltb_spec nA 9223372036854775807);
      destruct (signing_time cinfo) as [[t |] |]; cbn [snd]; try lia;
      match goal with
      | |- context [t <? ?b] => destruct (Z.ltb_spec t b)
      end; lia. }
  split; [exact Hup |].
  intros Hle. pose proof (signing_window_early nss cinfo) as He.
  unfold evaluation_time.
  destruct (signing_window nss cinfo) as [e l]. cbn [fst snd] in *.
  unfold PRTime in *. rewrite !Z.quot_div_nonneg by lia.
  pose proof (Z.div_le_upper_bound e 2 l ltac:(lia) ltac:(lia)).
  pose proof (Z.div_le_upper_bound l 2 l ltac:(lia) ltac:(lia)).
  pose proof (Z.div_mod e 2 ltac:(lia)).
  pose proof (Z.div_mod l 2 ltac:(lia)).
  pose proof (Z.mod_pos_bound e 2 ltac:(lia)).
  pose proof (Z.mod_pos_bound l 2 ltac:(lia)). lia.
Qed.

Lemma unreadable_times_bound_window_witness :
  In unreadable_times (firstn (length [[x30]]) [unreadable_times]) /\
  CERT_GetCertTimes unreadable_times cert_times_default
  = cert_times_default /\
  snd (signing_window
         (sample_nss (sample_cinfo 1 None) [unreadable_times] true
            (fun _ => true))
         (sample_cinfo 1 None))
  <= 0x7fffffffffff.
Proof.
  assert (Hin : In unreadable_times
                  (firstn (length [[x30]]) [unreadable_times]))
    by (left; reflexivity).
  assert (Hc : CERT_GetCertTimes unreadable_times cert_times_default
               = cert_times_default) by reflexivity.
  split; [exact Hin | split; [exact Hc |]].
  exact (proj1 (unreadable_times_bound_window
                  (sample_nss (sample_cinfo 1 None) [unreadable_times] true
                     (fun _ => true))
                  (sample_cinfo 1 None) [[x30]] [unreadable_times]
                  unreadable_times eq_refl eq_refl eq_refl eq_refl Hin Hc)).
Defined.

Lemma quot2_bounds a :
  a - 1 <= 2 * Z.quot a 2 <= a + 1 /\
  (0 <= a -> 2 * Z.quot a 2 <= a) /\
  (a <= 0 -> a <= 2 * Z.quot a 2).
Proof.
  pose proof (Z.quot_rem' a 2).
  destruct (Z.le_gt_cases 0 a).
  - pose proof (Z.rem_bound_pos a 2 ltac:(lia) ltac:(lia)). lia.
  - pose proof (Z.rem_bound_pos_neg a 2 ltac:(lia) ltac:(lia)). lia.
Qed.

(** X8.  The evaluation time [earlyNow / 2 + lateNow / 2] never leaves
    the range of a [PRTime] when the two bounds are in it.  When the
    window is [0 <= earlyNow <= lateNow] it is at most [lateNow] and at
    least [earlyNow - 1]; and when the window is the single instant [t]
    it is [t] for an even [t] and [t - 1], a microsecond before the
    window, for an odd one. *)
Theorem evaluation_time_range e l :
  PRTime_MIN <= e <= PRTime_MAX ->
  PRTime_MIN <= l <= PRTime_MAX ->
  PRTime_MIN <= evaluation_time (e, l) <= PRTime_MAX /\
  (0 <= e <= l -> e - 1 <= evaluation_time (e, l) <= l) /\
  (0 <= e -> e = l ->
   evaluation_time (e, l) = if Z.odd e then e - 1 else e).
Proof.
  unfold evaluation_time, PRTime_MIN, PRTime_MAX. cbn [fst snd].
  intros He Hl.
  pose proof (quot2_bounds e) as (E1 & E2 & E3).
  pose proof (quot2_bounds l) as (L1 & L2 & L3).
  split; [| split].
  - destruct (Z.le_gt_cases 0 e), (Z.le_gt_cases 0 l); lia.
  - intros H. lia.
  - intros H0 <-. pose proof (Zmod_odd e) as Ho.
    rewrite Z.quot_div_nonneg by lia.
    pose proof (Z.div_mod e 2 ltac:(lia)).
    destruct (Z.odd e); lia.
Qed.

Lemma evaluation_time_range_witness :
  PRTime_MIN <= 3 <= PRTime_MAX /\
  evaluation_time (3, 3) = 2.
Proof.
  assert (H : PRTime_MIN <= 3 <= PRTime_MAX)
    by (unfold PRTime_MIN, PRTime_MAX; lia).
  split; [exact H |].
  exact (proj2 (proj2 (evaluation_time_range 3 3 H H))
           ltac:(lia) eq_refl).
Defined.

(** ** What the certificate predicate prints *)

Lemma check_cert_never_fatal_witness :
  load_bytes (mkptr efi_guid_x509_cert 0) sizeof_efi_guid_t
  = Some efi_guid_x509_cert /\
  (result (check_cert
             (sample_nss (sample_cinfo 1 None) [valid_between 1 3] true
                (fun _ => false))
             (context_of [] []) (mkSECItem null_ptr 0)
             (mkptr efi_guid_x509_cert 0) (mkSECItem null_ptr 0))
   = Ok NOT_FOUND \/
   result (check_cert
             (sample_nss (sample_cinfo 1 None) [valid_between 1 3] true
                (fun _ => false))
             (context_of [] []) (mkSECItem null_ptr 0)
             (mkptr efi_guid_x509_cert 0) (mkSECItem null_ptr 0))
   = Ok FOUND).
Proof.
  assert (Htag : load_bytes (mkptr efi_guid_x509_cert 0) sizeof_efi_guid_t
                 = Some efi_guid_x509_cert) by reflexivity.
  split; [exact Htag |].
  refine (proj1 (check_cert_never_fatal
                   (sample_nss (sample_cinfo 1 None) [valid_between 1 3]
                      true (fun _ => false))
                   (context_of [] []) (mkSECItem null_ptr 0)
                   (mkptr efi_guid_x509_cert 0) (mkSECItem null_ptr 0)
                   efi_guid_x509_cert Htag eq_refl _)).
  intros cinfo2 [= <-]. discriminate.
Defined.

Lemma report_then (c : bool) (x : message) (m : M db_status) :
  filter on_stderr
    (output ((if c then say (Stdout x) else ret tt) ;;; m))
  = filter on_stderr (output m) /\
  result ((if c then say (Stdout x) else ret tt) ;;; m) = result m /\
  (filter (fun l => negb (on_stderr l)) (output m) = [] ->
   (length (filter (fun l => negb (on_stderr l))
              (output ((if c then say (Stdout x) else ret tt) ;;; m)))
    <= 1)%nat).
Proof.
  destruct m as [o r], c; cbn [output result fst snd say ret bind];
    destruct r; cbn; repeat split; try reflexivity;
    intros ->; cbn; auto.
Qed.

(** What [check_cert] does once the window is known, from the second
    decoding on. *)
Lemma check_cert_tail_output (nss : NSS) (sig pk : SECItem) (t : PRTime)
  (m : M db_status) :
  m = match decode_second nss pk with
      | None => ret NOT_FOUND
      | Some cinfo =>
      if negb (SECITEM_AllocItem nss) then ret NOT_FOUND else
      if negb (SECOID_FindOIDByTag nss) then ret NOT_FOUND else
      began <- with_context (PK11_CreateDigestContext nss)
                 (PK11_DigestBegin nss) ;;
      if negb began then ret NOT_FOUND else
      match signed_content cinfo with
      | None => raise NullPointer
      | Some content =>
      fed <- with_context (PK11_CreateDigestContext nss)
               (PK11_DigestOp nss (padd (data content) 2)
                  (wrap32 (len_ content - 2))) ;;
      if negb fed then ret NOT_FOUND else
      final <- with_context (PK11_CreateDigestContext nss)
                 (PK11_DigestFinal nss) ;;
      match final with
      | None => ret NOT_FOUND
      | Some digest =>
      if negb (CERT_NewTempCertificate nss sig)
      then say (Stderr UnableToCreateCert) ;;; ret NOT_FOUND else
      if negb (CERT_DecodeTrustString nss)
      then say (Stderr UnableToDecodeTrustString) ;;; ret NOT_FOUND else
      if negb (CERT_ChangeCertTrust nss)
      then say (Stderr FailedToChangeCertTrust) ;;; ret NOT_FOUND else
      if negb (SEC_PKCS7VerifyDetachedSignatureAtTime nss cinfo digest t)
      then say (Stderr VerifyError) ;;; ret NOT_FOUND else
      ret FOUND
      end end end ->
  (length (filter on_stderr (output m)) <= 1)%nat /\
  filter (fun l => negb (on_stderr l)) (output m) = [] /\
  (result m = Ok FOUND -> filter on_stderr (output m) = []).
Proof.
  intros ->.
  destruct (decode_second nss pk) as [cinfo2 |];
    [| cbn; repeat split; auto].
  destruct (SECITEM_AllocItem nss); cbn [negb];
    [| cbn; repeat split; auto].
  destruct (SECOID_FindOIDByTag nss); cbn [negb];
    [| cbn; repeat split; auto].
  destruct (PK11_CreateDigestContext nss); cbn [with_context];
    [| cbn; repeat split; auto; discriminate].
  rewrite bind_ret_l.
  destruct (PK11_DigestBegin nss); cbn [negb];
    [| cbn; repeat split; auto].
  destruct (signed_content cinfo2) as [content |];
    [| cbn; repeat split; auto; discriminate].
  rewrite bind_ret_l.
  destruct (PK11_DigestOp nss _ _); cbn [negb];
    [| cbn; repeat split; auto].
  rewrite bind_ret_l.
  destruct (PK11_DigestFinal nss) as [digest |];
    [| cbn; repeat split; auto].
  destruct (CERT_NewTempCertificate nss sig); cbn [negb];
    [| cbn; repeat split; auto; discriminate].
  destruct (CERT_DecodeTrustString nss); cbn [negb];
    [| cbn; repeat split; auto; discriminate].
  destruct (CERT_ChangeCertTrust nss); cbn [negb];
    [| cbn; repeat split; auto; discriminate].
  destruct (SEC_PKCS7VerifyDetachedSignatureAtTime nss cinfo2 digest t);
    cbn; repeat split; auto; discriminate.
Qed.

(** X10.  [check_cert] writes at most one line to stderr, and none when
    it answers FOUND, when the entry is not tagged X.509 or when the blob
    does not decode; whatever else it writes is the one line about an
    impossible time constraint. *)
Theorem check_cert_diagnostics nss ctx sig sigtype pk :
  (length (filter on_stderr (output (check_cert nss ctx sig sigtype pk)))
   <= 1)%nat /\
  (length (filter (fun l => negb (on_stderr l))
             (output (check_cert nss ctx sig sigtype pk))) <= 1)%nat /\
  (result (check_cert nss ctx sig sigtype pk) = Ok FOUND ->
   filter on_stderr (output (check_cert nss ctx sig sigtype pk)) = []) /\
  (decode_first nss pk = None ->
   output (check_cert nss ctx sig sigtype pk) = []) /\
  (forall tag, load_bytes sigtype sizeof_efi_guid_t = Some tag ->
               tag <> efi_guid_x509_cert ->
               output (check_cert nss ctx sig sigtype pk) = []).
Proof.
  unfold check_cert. rewrite memcmp_eq_loads.
  rewrite load_guid by reflexivity.
  destruct (load_bytes sigtype sizeof_efi_guid_t) as [tag |];
    [| cbn; repeat split; auto; discriminate].
  rewrite bind_ret_l.
  destruct (bytes_eqb tag efi_guid_x509_cert) eqn:Etag; cbn [negb];
    [| cbn; repeat split; auto; discriminate].
  apply bytes_eqb_true in Etag. subst tag.
  destruct (decode_first nss pk) as [cinfo |];
    [| cbn; repeat split; auto; discriminate].
  cbv zeta.
  match goal with
  | |- context [bind (if ?c then say (Stdout ?x) else ret tt)
                  (fun _ => ?m)] =>
      destruct (check_cert_tail_output nss sig pk
                  (evaluation_time (signing_window nss cinfo)) m eq_refl)
        as (T1 & T2 & T3);
      destruct (report_then c x m) as (R1 & R2 & R3)
  end.
  rewrite R1, R2.
  refine (conj T1 (conj (R3 T2) (conj T3 (conj _ _)))).
  - discriminate.
  - intros tag [= <-] Hne. contradiction.
Qed.

(** ** Groups of another type *)

Lemma load_bytes_padd_zero p n :
  load_bytes (padd p offsetof_SignatureType) n = load_bytes p n.
Proof. unfold offsetof_SignatureType. now rewrite padd_zero. Qed.

Lemma entries_tag_pointer gs e :
  In e (entries gs) ->
  exists g, In g gs /\ fst e = padd (g_header g) offsetof_SignatureType.
Proof.
  unfold entries. rewrite in_flat_map. intros (g & Hg & He).
  unfold group_entries in He. rewrite in_map_iff in He.
  destruct He as (i & <- & _). now exists g.
Qed.

Lemma check_db_all_rejected fuel which ctx check data_ datalen match_ gss :
  well_formed_chain (chain which ctx) gss ->
  Forall (fun gs => (length gs < fuel)%nat) gss ->
  (forall x, In x (concat (map entries gss)) ->
     answer check ctx (mkSECItem data_ (wrap32 datalen)) x = Ok NOT_FOUND) ->
  result (check_db fuel which ctx check data_ datalen match_)
  = Ok (NOT_FOUND, match_).
Proof.
  intros Hwf Hfuel Hall. unfold check_db.
  rewrite result_bind,
    (check_chain_first_match fuel which check ctx _ _ _ Hwf Hfuel).
  apply first_match_none_iff in Hall. now rewrite Hall.
Qed.

Lemma chain_entries_tag gss x :
  In x (concat (map entries gss)) ->
  exists gs g, In gs gss /\ In g gs /\
               fst x = padd (g_header g) offsetof_SignatureType.
Proof.
  rewrite in_concat. intros (es & Hes & Hx).
  rewrite in_map_iff in Hes. destruct Hes as (gs & <- & Hgs).
  apply entries_tag_pointer in Hx as (g & Hg & Hx). now exists gs, g.
Qed.

(** X11.  Each predicate passes over the groups of the other kind: on a
    chain of well-formed sources none of whose groups is tagged X.509,
    [check_db_cert] answers NOT_FOUND whatever NSS would say, and on one
    none of whose groups is tagged SHA-256 or SHA-1, [check_db_hash]
    answers NOT_FOUND whatever the digests are; neither reads a
    payload. *)
Theorem check_db_skips_other_groups fuel which ctx gss :
  well_formed_chain (chain which ctx) gss ->
  Forall (fun gs => (length gs < fuel)%nat) gss ->
  ((forall gs g, In gs gss -> In g gs ->
      exists tag, load_bytes (g_header g) sizeof_efi_guid_t = Some tag /\
                  tag <> efi_guid_x509_cert) ->
   forall nss data_ datalen match_,
     result (check_db_cert nss fuel which ctx data_ datalen match_)
     = Ok (NOT_FOUND, match_)) /\
  ((forall gs g, In gs gss -> In g gs ->
      exists tag, load_bytes (g_header g) sizeof_efi_guid_t = Some tag /\
                  tag <> efi_guid_sha256 /\ tag <> efi_guid_sha1) ->
   result (check_db_hash fuel which ctx) = Ok NOT_FOUND).
Proof.
  intros Hwf Hfuel. split.
  - intros Htags nss data_ datalen match_. unfold check_db_cert.
    apply (check_db_all_rejected _ _ _ _ _ _ _ gss Hwf Hfuel).
    intros x Hx. apply chain_entries_tag in Hx as (gs & g & Hgs & Hg & Hx).
    destruct (Htags gs g Hgs Hg) as (tag & Htag & Hne).
    unfold answer. rewrite Hx.
    rewrite (check_cert_other_tag nss ctx _ _ _ tag);
      [reflexivity | now rewrite load_bytes_padd_zero | exact Hne].
  - intros Htags. unfold check_db_hash. rewrite result_bind.
    rewrite (check_db_all_rejected _ _ _ _ _ _ _ gss Hwf Hfuel);
      [reflexivity |].
    intros x Hx. apply chain_entries_tag in Hx as (gs & g & Hgs & Hg & Hx).
    destruct (Htags gs g Hgs Hg) as (tag & Htag & Hn256 & Hn1).
    unfold answer. rewrite Hx. unfold check_hash.
    rewrite !memcmp_eq_loads, load_bytes_padd_zero, Htag.
    rewrite !load_guid by reflexivity. rewrite ?bind_ret_l.
    destruct (bytes_eqb tag efi_guid_sha256) eqn:E1;
      [apply bytes_eqb_true in E1; contradiction |].
    rewrite ?bind_ret_l.
    destruct (bytes_eqb tag efi_guid_sha1) eqn:E2;
      [apply bytes_eqb_true in E2; contradiction |].
    reflexivity.
Qed.

Lemma check_db_skips_other_groups_witness :
  well_formed_chain
    (chain DB (context_of [source_of "db" two_group_region] []))
    [two_groups] /\
  Forall (fun gs => (length gs < 3)%nat) [two_groups] /\
  result (check_db_cert
            (sample_nss (sample_cinfo 1 None) [valid_between 1 3] true
               (fun _ => true))
            3 DB (context_of [source_of "db" two_group_region] [])
            null_ptr 0 None)
  = Ok (NOT_FOUND, None).
Proof.
  assert (Hwf : well_formed_chain
                  (chain DB (context_of [source_of "db" two_group_region] []))
                  [two_groups]).
  { constructor; [| constructor].
    change (well_formed 160 (mkptr two_group_region 0) two_groups).
    unfold two_groups; well_formed_region. }
  assert (Hfuel : Forall (fun gs => (length gs < 3)%nat) [two_groups]).
  { constructor; [cbn; lia | constructor]. }
  split; [exact Hwf | split; [exact Hfuel |]].
  apply (proj1 (check_db_skips_other_groups 3 DB _ _ Hwf Hfuel)).
  intros gs g [<- | []] [<- | [<- | []]].
  - exists efi_guid_sha256. split; [vm_compute; reflexivity | discriminate].
  - exists efi_guid_sha1. split; [vm_compute; reflexivity | discriminate].
Defined.

(** ** Loads and searches of different chains *)

Lemma check_entries_ctx_ext check ctx1 ctx2 pk certlist ssz n :
  (forall sig sigtype,
     check ctx1 sig sigtype pk = check ctx2 sig sigtype pk) ->
  forall cert,
    check_entries check ctx1 pk certlist ssz n cert
    = check_entries check ctx2 pk certlist ssz n cert.
Proof.
  intros Hc. induction n as [| n IH]; intros cert; cbn [check_entries];
    [reflexivity |].
  rewrite Hc. apply bind_ext. intros [|]; [reflexivity | apply IH].
Qed.

Lemma check_lists_ctx_ext check ctx1 ctx2 pk fuel :
  (forall sig sigtype,
     check ctx1 sig sigtype pk = check ctx2 sig sigtype pk) ->
  forall dbsize certlist,
    check_lists fuel check ctx1 pk dbsize certlist
    = check_lists fuel check ctx2 pk dbsize certlist.
Proof.
  intros Hc. induction fuel as [| fuel IH]; intros dbsize certlist;
    cbn [check_lists]; [reflexivity |].
  destruct (0 <? dbsize); [| reflexivity].
  apply bind_ext. intros total.
  destruct (total <=? dbsize); [| reflexivity].
  apply bind_ext. intros skip. apply bind_ext. intros entry.
  destruct (entry =? 0); [reflexivity |].
  rewrite (check_entries_ctx_ext check ctx1 ctx2 pk _ _ _ Hc).
  apply bind_ext. intros [sig |]; [reflexivity | apply IH].
Qed.

Lemma check_chain_ctx_ext check ctx1 ctx2 pk fuel which c :
  (forall sig sigtype,
     check ctx1 sig sigtype pk = check ctx2 sig sigtype pk) ->
  check_chain fuel which check ctx1 pk c
  = check_chain fuel which check ctx2 pk c.
Proof.
  intros Hc. induction c as [| d c IH]; cbn [check_chain]; [reflexivity |].
  apply bind_ext. intros _.
  rewrite (check_lists_ctx_ext check ctx1 ctx2 pk fuel Hc).
  apply bind_ext. intros [sig |]; [reflexivity | exact IH].
Qed.

Lemma check_hash_digests ctx1 ctx2 sig sigtype pk :
  pe_digest0 ctx1 = pe_digest0 ctx2 ->
  pe_digest1 ctx1 = pe_digest1 ctx2 ->
  check_hash ctx1 sig sigtype pk = check_hash ctx2 sig sigtype pk.
Proof. intros H0 H1. unfold check_hash. now rewrite H0, H1. Qed.

Lemma add_db_file_frame os ctx which dbfile type out rc e ctx' :
  add_db_file os ctx which dbfile type = (out, Ok (rc, e, ctx')) ->
  chain (other_chain which) ctx' = chain (other_chain which) ctx /\
  pe_digest0 ctx' = pe_digest0 ctx /\
  pe_digest1 ctx' = pe_digest1 ctx.
Proof.
  intros Hadd.
  destruct (add_db_file_cases os ctx which dbfile type)
    as [(e0 & H) | [(d & Hd & H) | (_ & H)]];
    rewrite H in Hadd; unfold ret, raise in Hadd;
    try discriminate Hadd; injection Hadd as <- <- <- <-.
  - repeat split.
  - split; [apply set_chain_other | apply set_chain_digests].
Qed.

(** X12.  A load into one chain changes no answer about the other: after
    any [add_db_file] into the allow (deny) chain, whether it succeeded
    or not, [check_db_hash] and [check_db_cert] on the deny (allow) chain
    return and print what they did before. *)
Theorem add_db_file_keeps_other_chain_answers os ctx which dbfile type out
  rc e ctx' :
  add_db_file os ctx which dbfile type = (out, Ok (rc, e, ctx')) ->
  forall fuel nss data_ datalen match_,
    check_db_hash fuel (other_chain which) ctx'
    = check_db_hash fuel (other_chain which) ctx /\
    check_db_cert nss fuel (other_chain which) ctx' data_ datalen match_
    = check_db_cert nss fuel (other_chain which) ctx data_ datalen match_.
Proof.
  intros Hadd fuel nss data_ datalen match_.
  destruct (add_db_file_frame _ _ _ _ _ _ _ _ _ Hadd) as (Hch & H0 & H1).
  unfold check_db_hash, check_db_cert, check_db. rewrite Hch. split.
  - rewrite (check_chain_ctx_ext check_hash ctx' ctx); [reflexivity |].
    intros sig sigtype. now apply check_hash_digests.
  - rewrite (check_chain_ctx_ext (check_cert nss) ctx' ctx);
      [reflexivity | reflexivity].
Qed.

Lemma add_db_file_keeps_other_chain_answers_witness :
  add_db_file (readable_file "more" zero_entry_size_region)
    (context_of [] [source_of "dbx" two_group_region]) DB DB_PATH DB_FILE
  = ([], Ok (0, 0,
             context_of [source_of "more" zero_entry_size_region]
               [source_of "dbx" two_group_region])) /\
  check_db_hash 3 DBX
    (context_of [source_of "more" zero_entry_size_region]
       [source_of "dbx" two_group_region])
  = check_db_hash 3 DBX (context_of [] [source_of "dbx" two_group_region]).
Proof.
  assert (H : add_db_file (readable_file "more" zero_entry_size_region)
                (context_of [] [source_of "dbx" two_group_region]) DB
                DB_PATH DB_FILE
              = ([], Ok (0, 0,
                         context_of
                           [source_of "more" zero_entry_size_region]
                           [source_of "dbx" two_group_region])))
    by (vm_compute; reflexivity).
  split; [exact H |].
  exact (proj1 (add_db_file_keeps_other_chain_answers _ _ DB _ _ _ _ _ _ H 3%nat
                  (sample_nss (sample_cinfo 1 None) [] true (fun _ => true))
                  null_ptr 0 None)).
Defined.

(** ** What the bootstrap keeps *)

Lemma attempt_shape world ctx which path ctx' :
  attempt world ctx which path (Some ctx') ->
  exists new,
    chain which ctx' = new ++ chain which ctx /\
    (length new <= 1)%nat /\
    Forall (fun d => db_type d = DB_EFIVAR) new /\
    chain (other_chain which) ctx' = chain (other_chain which) ctx /\
    pe_digest0 ctx' = pe_digest0 ctx /\
    pe_digest1 ctx' = pe_digest1 ctx.
Proof.
  inversion 1 as [d Hd Hadd Heq | Hadd Heq | ]; subst.
  - exists [d]. rewrite set_chain_same, set_chain_other.
    repeat split; try apply set_chain_digests.
    + cbn; lia.
    + now constructor.
  - exists []. repeat split; [cbn; lia | constructor].
Qed.

(** X13.  [init_cert_db] either returns or exits with status 1, and when
    it returns every source that was in the context is still there, in
    its chain and in its place: each chain is the old chain with at most
    two sources in front, all of them firmware variables, and the two
    digests of the context are as they were. *)
Theorem init_cert_db_keeps_sources world ctx use_system_dbs :
  (exists out ctx',
     init_cert_db world ctx use_system_dbs = (out, Ok ctx') /\
     exists new_db new_dbx,
       db ctx' = new_db ++ db ctx /\
       dbx ctx' = new_dbx ++ dbx ctx /\
       (length new_db <= 2)%nat /\ (length new_dbx <= 2)%nat /\
       Forall (fun d => db_type d = DB_EFIVAR) (new_db ++ new_dbx) /\
       pe_digest0 ctx' = pe_digest0 ctx /\
       pe_digest1 ctx' = pe_digest1 ctx) \/
  (exists out, init_cert_db world ctx use_system_dbs = (out, Exit 1)).
Proof.
  unfold init_cert_db.
  destruct (use_system_dbs =? 0).
  { left. exists [], ctx. split; [reflexivity |].
    exists [], []. repeat split; auto. }
  destruct (load_or_exit_attempt world ctx DB DB_PATH
              CouldNotAddKeyDatabase) as (r1 & A1 & ->).
  destruct r1 as [c1 |]; [| right; eexists; reflexivity].
  rewrite bind_ret_l.
  destruct (load_or_exit_attempt world c1 DB MOK_PATH
              CouldNotAddKeyDatabase) as (r2 & A2 & ->).
  destruct r2 as [c2 |]; [| right; eexists; reflexivity].
  rewrite bind_ret_l, warn_db_then.
  destruct (load_or_exit_attempt world c2 DBX DBX_PATH
              CouldNotAddRevocationDatabase) as (r3 & A3 & ->).
  destruct r3 as [c3 |]; [| right; eexists; reflexivity].
  rewrite bind_ret_l.
  destruct (load_or_exit_attempt world c3 DBX MOKX_PATH
              CouldNotAddKeyDatabase) as (r4 & A4 & ->).
  destruct r4 as [c4 |]; [| right; eexists; reflexivity].
  rewrite bind_ret_l, warn_dbx_then. left.
  eexists. exists c4. split; [reflexivity |].
  apply attempt_shape in A1 as (n1 & E1 & L1 & F1 & O1 & P1 & Q1).
  apply attempt_shape in A2 as (n2 & E2 & L2 & F2 & O2 & P2 & Q2).
  apply attempt_shape in A3 as (n3 & E3 & L3 & F3 & O3 & P3 & Q3).
  apply attempt_shape in A4 as (n4 & E4 & L4 & F4 & O4 & P4 & Q4).
  cbn [chain other_chain] in *.
  exists (n2 ++ n1), (n4 ++ n3).
  split; [rewrite O4, O3, E2, E1; now rewrite app_assoc |].
  split; [rewrite E4, E3, O2, O1; now rewrite app_assoc |].
  split; [rewrite length_app; lia |].
  split; [rewrite length_app; lia |].
  split; [repeat (apply Forall_app; split); assumption |].
  split; congruence.
Qed.

(** ** Bare certificates of any size *)

Lemma wrap64_small v : 0 <= v < 2 ^ 64 -> wrap64 v = v.
Proof. intros H. now apply Z.mod_small. Qed.

Lemma add_db_file_builds_wrapped os ctx which dbfile fd cert :
  loads os fd (len cert) cert ->
  calloc_data os = Done tt ->
  len cert + 44 < 2 ^ 64 ->
  add_db_file os ctx which dbfile DB_CERT
  = ret (0, 0,
         set_chain which
           (mkdblist DB_CERT fd (basename_ os) cert (len cert)
              (mkptr (wrapped_certificate cert) 0) (len cert + 44)
            :: chain which ctx) ctx).
Proof.
  intros Hl Hcal H64.
  pose proof (loads_buffer _ _ _ _ Hl) as Hbuf.
  destruct Hl as (Hc & Ho & Hs1 & Hs2 & Hf & _).
  pose proof (len_nonneg cert) as H0.
  assert (HwL : wrap64 (len cert) = len cert) by (apply wrap64_small; lia).
  assert (HwD : wrap64 (len cert + 28 + 16) = len cert + 44)
    by (rewrite wrap64_small; lia).
  destruct (synthesized_region cert)
    as (d1 & d2 & d3 & d4 & S1 & S2 & S3 & S4 & S5).
  unfold add_db_file.
  rewrite Hc, Ho, Hs1, Hs2, Hf, Hbuf, Hcal, HwL.
  unfold sizeof_EFI_SIGNATURE_LIST, sizeof_efi_guid_t,
    offsetof_SignatureType, offsetof_SignatureListSize,
    offsetof_SignatureHeaderSize, offsetof_SignatureSize,
    offsetof_SignatureData.
  rewrite HwD.
  rewrite (bind_must_some _ _ _ S1), (bind_must_some _ _ _ S2),
    (bind_must_some _ _ _ S3), (bind_must_some _ _ _ S4).
  rewrite (bind_must_some _ _ _ (load_bytes_all cert)).
  change (28 + 16) with 44.
  rewrite (bind_must_some _ _ _ S5), <- wrapped_certificate_stores.
  reflexivity.
Qed.

Lemma wrapped_certificate_header cert :
  len cert + 44 < 2 ^ 32 ->
  header_at (mkptr (wrapped_certificate cert) 0) (wrapped_group cert).
Proof.
  intros H32. pose proof (len_nonneg cert) as H0.
  assert (Hw : forall v, 0 <= v < 2 ^ 32 -> wrap32 v = v)
    by (intros; now apply Z.mod_small).
  unfold header_at, wrapped_group. cbn [g_header g_total g_skip g_entry].
  unfold sizeof_EFI_SIGNATURE_LIST, sizeof_efi_guid_t.
  unfold padd. cbn [obj off].
  split; [reflexivity |]. split; [| split].
  - replace (Some (len cert + 28 + 16))
      with (Some (wrap32 (len cert + 28 + 16)))
      by (f_equal; apply Hw; lia).
    eapply (load_u32_mid _ efi_guid_x509_cert); reflexivity.
  - change (Some 0) with (Some (wrap32 0)).
    eapply (load_u32_mid _ (efi_guid_x509_cert ++ le32 _));
      [unfold wrapped_certificate; rewrite <- app_assoc; reflexivity
      | reflexivity].
  - replace (Some (len cert + 16)) with (Some (wrap32 (len cert + 16)))
      by (f_equal; apply Hw; lia).
    eapply (load_u32_mid _ (efi_guid_x509_cert ++ le32 _ ++ le32 _));
      [unfold wrapped_certificate; rewrite <- !app_assoc; reflexivity
      | reflexivity].
Qed.

(** X14.  A file of at most 12 bytes given as a bare certificate is
    loaded like any other, and the walk of the region built for it counts
    two entries or more, [(L + 44) / (L + 16)]: the predicate is applied
    to the wrapped bytes and then to entries whose payload starts at or
    after the end of the region. *)
Theorem add_db_file_short_certificate os ctx which dbfile fd cert :
  loads os fd (len cert) cert ->
  calloc_data os = Done tt ->
  len cert <= 12 ->
  add_db_file os ctx which dbfile DB_CERT
  = ret (0, 0,
         set_chain which
           (mkdblist DB_CERT fd (basename_ os) cert (len cert)
              (mkptr (wrapped_certificate cert) 0) (len cert + 44)
            :: chain which ctx) ctx) /\
  (forall check c pk fuel, (1 < fuel)%nat ->
     check_lists fuel check c pk (len cert + 44)
       (mkptr (wrapped_certificate cert) 0)
     = first_match check c pk (group_entries (wrapped_group cert))) /\
  (2 <= length (group_entries (wrapped_group cert)))%nat /\
  (forall i, (1 <= i)%nat ->
     len (wrapped_certificate cert)
     <= off (data (snd (nth_entry (wrapped_group cert) i)))).
Proof.
  intros Hl Hcal H12. pose proof (len_nonneg cert) as H0.
  refine (conj _ (conj _ (conj _ _))).
  - apply add_db_file_builds_wrapped; auto. lia.
  - intros check c pk fuel Hfuel.
    assert (Hwf : well_formed (len cert + 44)
                    (mkptr (wrapped_certificate cert) 0)
                    [wrapped_group cert]).
    { apply wf_group.
      - lia.
      - apply wrapped_certificate_header. lia.
      - cbn. unfold sizeof_EFI_SIGNATURE_LIST, sizeof_efi_guid_t. lia.
      - cbn. unfold sizeof_efi_guid_t. lia.
      - cbn. unfold sizeof_EFI_SIGNATURE_LIST, sizeof_efi_guid_t. lia.
      - apply wf_end. cbn.
        unfold sizeof_EFI_SIGNATURE_LIST, sizeof_efi_guid_t. lia. }
    rewrite (check_lists_well_formed _ _ _ _ _ _ Hwf) by (cbn; lia).
    unfold entries. cbn [flat_map]. now rewrite app_nil_r.
  - rewrite group_entries_length.
    cbn [wrapped_group g_total g_skip g_entry].
    unfold sizeof_EFI_SIGNATURE_LIST, sizeof_efi_guid_t.
    assert (2 <= (len cert + 28 + 16 - 0) / (len cert + 16))
      by (apply Z.div_le_lower_bound; lia).
    lia.
  - intros i Hi. rewrite wrapped_certificate_len.
    unfold nth_entry, wrapped_group, padd.
    cbn [g_header g_skip g_entry snd data obj off].
    unfold sizeof_EFI_SIGNATURE_LIST, sizeof_efi_guid_t,
      offsetof_SignatureData. nia.
Qed.

Lemma add_db_file_short_certificate_witness :
  loads (readable_file "tiny" twelve_byte_file) 3 (len twelve_byte_file)
    twelve_byte_file /\
  len twelve_byte_file <= 12 /\
  (2 <= length (group_entries (wrapped_group twelve_byte_file)))%nat.
Proof.
  assert (Hl : loads (readable_file "tiny" twelve_byte_file) 3
                 (len twelve_byte_file) twelve_byte_file)
    by (repeat split; left; reflexivity).
  assert (H12 : len twelve_byte_file <= 12)
    by (change (len twelve_byte_file) with 12; lia).
  split; [exact Hl | split; [exact H12 |]].
  exact (proj1 (proj2 (proj2 (add_db_file_short_certificate
                  (readable_file "tiny" twelve_byte_file)
                  (context_of [] []) DB "tiny" 3 twelve_byte_file
                  Hl eq_refl H12)))).
Defined.

(** ** How far the predicates and the search read *)

(** X16.  [check_hash] compares 32 bytes of a SHA-256 entry and 20 bytes
    of a SHA-1 entry whatever length the entry has: when fewer bytes are
    left in the buffer from the start of the payload, the read leaves the
    buffer. *)
Theorem check_hash_reads_digest_length ctx sig sigtype pk tag n digest :
  load_bytes sigtype sizeof_efi_guid_t = Some tag ->
  (tag = efi_guid_sha256 /\ n = 32 /\ digest = pe_digest0 ctx) \/
  (tag = efi_guid_sha1 /\ n = 20 /\ digest = pe_digest1 ctx) ->
  load_bytes digest n <> None ->
  len (obj (data sig)) < off (data sig) + n ->
  check_hash ctx sig sigtype pk = raise OutOfBounds.
Proof.
  intros Htag Hkind Hdig Hshort.
  assert (Hld : load_bytes (data sig) n = None).
  { unfold load_bytes.
    replace (off (data sig) + n <=? len (obj (data sig))) with false
      by (symmetry; apply Z.leb_gt; lia).
    now rewrite andb_false_r. }
  unfold check_hash. rewrite !memcmp_eq_loads, Htag.
  rewrite !load_guid by reflexivity. rewrite ?bind_ret_l.
  destruct Hkind as [(-> & -> & ->) | (-> & -> & ->)].
  - replace (bytes_eqb efi_guid_sha256 efi_guid_sha256) with true
      by (symmetry; now apply bytes_eqb_true).
    rewrite Hld.
    destruct (load_bytes (pe_digest0 ctx) 32); [reflexivity | contradiction].
  - replace (bytes_eqb efi_guid_sha1 efi_guid_sha256) with false
      by reflexivity.
    rewrite ?bind_ret_l.
    replace (bytes_eqb efi_guid_sha1 efi_guid_sha1) with true
      by (symmetry; now apply bytes_eqb_true).
    rewrite Hld.
    destruct (load_bytes (pe_digest1 ctx) 20); [reflexivity | contradiction].
Qed.

Lemma check_hash_reads_digest_length_witness :
  load_bytes (mkptr short_total_size_region 0) sizeof_efi_guid_t
  = Some efi_guid_sha256 /\
  len (obj (mkptr short_total_size_region 20)) < 20 + 32 /\
  check_hash (context_of [] [])
    (mkSECItem (mkptr short_total_size_region 20) 16)
    (mkptr short_total_size_region 0) (mkSECItem null_ptr 0)
  = raise OutOfBounds.
Proof.
  assert (Htag : load_bytes (mkptr short_total_size_region 0)
                   sizeof_efi_guid_t = Some efi_guid_sha256)
    by (vm_compute; reflexivity).
  assert (Hs : len (obj (mkptr short_total_size_region 20)) < 20 + 32)
    by (vm_compute; reflexivity).
  split; [exact Htag | split; [exact Hs |]].
  apply (check_hash_reads_digest_length (context_of [] [])
           (mkSECItem (mkptr short_total_size_region 20) 16)
           (mkptr short_total_size_region 0) (mkSECItem null_ptr 0)
           efi_guid_sha256 32 (mkptr artifact_sha256 0) Htag).
  - left. repeat split.
  - vm_compute. discriminate.
  - exact Hs.
Defined.

(** X17.  A match ends the search where it is: when the first source of
    the chain is well formed and the predicate reports one of its entries
    found after rejecting those before it, [check_db] returns FOUND
    whatever the rest of the chain holds, malformed sources included. *)
Theorem check_db_stops_at_match fuel which ctx check data_ datalen match_ d
  rest gs pre e post :
  chain which ctx = d :: rest ->
  well_formed (db_datalen d) (db_data d) gs ->
  (length gs < fuel)%nat ->
  entries gs = pre ++ e :: post ->
  (forall x, In x pre ->
     answer check ctx (mkSECItem data_ (wrap32 datalen)) x = Ok NOT_FOUND) ->
  answer check ctx (mkSECItem data_ (wrap32 datalen)) e = Ok FOUND ->
  result (check_db fuel which ctx check data_ datalen match_)
  = Ok (FOUND, option_map (fun _ => snd e) match_).
Proof.
  intros Hch Hwf Hfuel Hes Hpre He.
  unfold check_db. rewrite Hch. cbn [check_chain].
  rewrite !result_bind. cbn [say result snd].
  rewrite (check_lists_well_formed _ _ _ _ _ _ Hwf _ Hfuel), Hes.
  rewrite (first_match_found _ _ _ _ _ _ Hpre He). reflexivity.
Qed.

Lemma check_db_stops_at_match_witness :
  well_formed 160 (mkptr two_group_region 0) two_groups /\
  result (check_db 3 DBX
            (context_of []
               [source_of "dbx" two_group_region;
                source_of "bad" zero_entry_size_region])
            check_hash null_ptr 0 (Some (mkSECItem null_ptr 0)))
  = Ok (FOUND, Some (mkSECItem (mkptr two_group_region 44) 32)).
Proof.
  assert (Hwf : well_formed 160 (mkptr two_group_region 0) two_groups)
    by (unfold two_groups; well_formed_region).
  split; [exact Hwf |].
  assert (Hfuel : (length two_groups < 3)%nat) by (cbn; lia).
  assert (He : answer check_hash
                 (context_of []
                    [source_of "dbx" two_group_region;
                     source_of "bad" zero_entry_size_region])
                 (mkSECItem null_ptr (wrap32 0))
                 (nth_entry (mkgroup (mkptr two_group_region 0) 76 0 48) 0)
               = Ok FOUND) by (vm_compute; reflexivity).
  exact (check_db_stops_at_match 3 DBX
           (context_of []
              [source_of "dbx" two_group_region;
               source_of "bad" zero_entry_size_region])
           check_hash null_ptr 0 (Some (mkSECItem null_ptr 0))
           (source_of "dbx" two_group_region)
           [source_of "bad" zero_entry_size_region] two_groups []
           (nth_entry (mkgroup (mkptr two_group_region 0) 76 0 48) 0)
           [nth_entry (mkgroup (mkptr two_group_region 76) 64 0 36) 0]
           eq_refl Hwf Hfuel eq_refl (fun x (H : In x []) => match H with end)
           He).
Defined.

Lemma first_match_silent_rejected check ctx pk es :
  silent check ctx pk -> rejects_all check ctx pk ->
  first_match check ctx pk es = ret None.
Proof.
  intros Hs Hr. induction es as [| e es IH]; cbn [first_match];
    [reflexivity |].
  specialize (Hs (snd e) (fst e)). specialize (Hr (snd e) (fst e)).
  destruct (check ctx (snd e) (fst e) pk) as [o r].
  cbn [output result fst snd] in Hs, Hr. subst o r.
  unfold bind. now rewrite IH.
Qed.

(** X18.  A search that finds nothing names every source of the chain
    once, in chain order: with a predicate that writes nothing and
    rejects every entry, [check_db] on a chain of well-formed sources
    prints one "Searching" line per source, first source first, and
    returns NOT_FOUND with [match] as it was. *)
Theorem check_db_names_every_source fuel which ctx check data_ datalen
  match_ gss :
  well_formed_chain (chain which ctx) gss ->
  Forall (fun gs => (length gs < fuel)%nat) gss ->
  silent check ctx (mkSECItem data_ (wrap32 datalen)) ->
  rejects_all check ctx (mkSECItem data_ (wrap32 datalen)) ->
  check_db fuel which ctx check data_ datalen match_
  = (searching_lines which (chain which ctx), Ok (NOT_FOUND, match_)).
Proof.
  intros Hwf Hfuel Hs Hr. unfold check_db.
  assert (Hchain :
    check_chain fuel which check ctx (mkSECItem data_ (wrap32 datalen))
      (chain which ctx)
    = (searching_lines which (chain which ctx), Ok None)).
  { revert Hfuel. induction Hwf as [| d gs c gss Hd _ IH]; intros Hfuel;
      cbn [check_chain searching_lines map]; [reflexivity |].
    inversion Hfuel as [| ? ? Hgs Hgss]; subst.
    rewrite (check_lists_well_formed _ _ _ _ _ _ Hd _ Hgs).
    rewrite (first_match_silent_rejected _ _ _ _ Hs Hr), bind_ret_l.
    rewrite (IH Hgss). reflexivity. }
  rewrite Hchain. cbn. now rewrite app_nil_r.
Qed.

Lemma check_db_names_every_source_witness :
  well_formed_chain
    (chain DB (context_of [source_of "db" two_group_region;
                           source_of "MokListRT" two_group_region] []))
    [two_groups; two_groups] /\
  check_db 3 DB
    (context_of [source_of "db" two_group_region;
                 source_of "MokListRT" two_group_region] [])
    never_found null_ptr 0 None
  = ([Stdout (Searching DB "db"); Stdout (Searching DB "MokListRT")],
     Ok (NOT_FOUND, None)).
Proof.
  assert (Hwf : well_formed_chain
                  (chain DB (context_of
                               [source_of "db" two_group_region;
                                source_of "MokListRT" two_group_region] []))
                  [two_groups; two_groups]).
  { constructor; [| constructor; [| constructor]];
      change (well_formed 160 (mkptr two_group_region 0) two_groups);
      unfold two_groups; well_formed_region. }
  split; [exact Hwf |].
  apply (check_db_names_every_source 3 DB _ never_found null_ptr 0 None
           [two_groups; two_groups] Hwf).
  - repeat constructor.
  - intros sig sigtype. reflexivity.
  - intros sig sigtype. reflexivity.
Defined.

(** ** Loading a hash and finding it *)

Lemma sha256_list_len owner hash :
  length owner = 16%nat -> length hash = 32%nat ->
  len (sha256_list owner hash) = 76.
Proof.
  intros Ho Hh. unfold sha256_list. rewrite !len_app, !len_le32.
  unfold len. rewrite Ho, Hh. reflexivity.
Qed.

Lemma sha256_list_well_formed owner hash :
  length owner = 16%nat -> length hash = 32%nat ->
  well_formed 76 (mkptr (sha256_list owner hash) 0)
    [sha256_group owner hash].
Proof.
  intros Ho Hh. apply wf_group; try (cbn; lia).
  - unfold header_at, sha256_group. cbn [g_header g_total g_skip g_entry].
    unfold padd. cbn [obj off].
    split; [reflexivity |]. split; [| split].
    + change (Some 76) with (Some (wrap32 76)).
      eapply (load_u32_mid _ efi_guid_sha256); reflexivity.
    + change (Some 0) with (Some (wrap32 0)).
      eapply (load_u32_mid _ (efi_guid_sha256 ++ le32 _));
        [unfold sha256_list; rewrite <- app_assoc; reflexivity
        | reflexivity].
    + change (Some 48) with (Some (wrap32 48)).
      eapply (load_u32_mid _ (efi_guid_sha256 ++ le32 _ ++ le32 _));
        [unfold sha256_list; rewrite <- !app_assoc; reflexivity
        | reflexivity].
  - apply wf_end. cbn. lia.
Qed.

Lemma sha256_list_answer ctx owner hash digest pk :
  length owner = 16%nat -> length hash = 32%nat ->
  length digest = 32%nat ->
  pe_digest0 ctx = mkptr digest 0 ->
  check_hash ctx (mkSECItem (mkptr (sha256_list owner hash) 44) 32)
    (mkptr (sha256_list owner hash) 0) pk
  = ret (if bytes_eqb digest hash then FOUND else NOT_FOUND).
Proof.
  intros Ho Hh Hd Hctx. unfold check_hash. rewrite !memcmp_eq_loads.
  rewrite (load_bytes_mid (sha256_list owner hash) [] efi_guid_sha256
             (le32 76 ++ le32 0 ++ le32 48 ++ owner ++ hash)
             0 sizeof_efi_guid_t) by reflexivity.
  rewrite load_guid by reflexivity. rewrite bind_ret_l.
  replace (bytes_eqb efi_guid_sha256 efi_guid_sha256) with true
    by (symmetry; now apply bytes_eqb_true).
  rewrite Hctx.
  replace (load_bytes (mkptr digest 0) 32) with (Some digest)
    by (symmetry; replace 32 with (len digest)
          by (unfold len; now rewrite Hd); apply load_bytes_all).
  cbn [data].
  rewrite (load_bytes_mid (sha256_list owner hash)
             (efi_guid_sha256 ++ le32 76 ++ le32 0 ++ le32 48 ++ owner)
             hash [] 44 32).
  - rewrite bind_ret_l. now destruct (bytes_eqb digest hash).
  - unfold sha256_list. rewrite app_nil_r, <- !app_assoc. reflexivity.
  - rewrite !len_app, !len_le32. unfold len. rewrite Ho. reflexivity.
  - unfold len. now rewrite Hh.
Qed.

(** X19.  Loading and finding a hash.  A file that holds one SHA-256
    entry, loaded with [add_cert_dbx], goes to the head of the deny
    chain, and [check_db_hash] on the deny chain then answers FOUND when
    the hash of the entry is the SHA-256 digest of the context, whatever
    was in the chain before; when it is any other 32 bytes and the chain
    was empty, it answers NOT_FOUND. *)
Theorem add_cert_dbx_then_check_db_hash name owner hash digest ctx fuel :
  length owner = 16%nat ->
  length hash = 32%nat ->
  length digest = 32%nat ->
  pe_digest0 ctx = mkptr digest 0 ->
  (1 < fuel)%nat ->
  exists ctx',
    add_cert_dbx (readable_file name (sha256_list owner hash)) ctx name
    = ret (0, 0, ctx') /\
    dbx ctx' = source_of name (sha256_list owner hash) :: dbx ctx /\
    db ctx' = db ctx /\
    (hash = digest -> result (check_db_hash fuel DBX ctx') = Ok FOUND) /\
    (hash <> digest -> dbx ctx = [] ->
     result (check_db_hash fuel DBX ctx') = Ok NOT_FOUND).
Proof.
  intros Ho Hh Hd Hctx Hfuel.
  pose proof (sha256_list_len owner hash Ho Hh) as Hlen.
  pose proof (sha256_list_well_formed owner hash Ho Hh) as Hwf.
  exists (mkctx (db ctx) (source_of name (sha256_list owner hash) :: dbx ctx)
            (pe_digest0 ctx) (pe_digest1 ctx)).
  assert (Hes : entries [sha256_group owner hash]
                = [(mkptr (sha256_list owner hash) 0,
                    mkSECItem (mkptr (sha256_list owner hash) 44) 32)])
    by reflexivity.
  assert (Hwalk :
    forall c,
      result (check_lists fuel check_hash c (mkSECItem null_ptr (wrap32 0))
                76 (mkptr (sha256_list owner hash) 0))
      = result (first_match check_hash c (mkSECItem null_ptr (wrap32 0))
                  [(mkptr (sha256_list owner hash) 0,
                    mkSECItem (mkptr (sha256_list owner hash) 44) 32)])).
  { intros c. rewrite (check_lists_well_formed _ _ _ _ _ _ Hwf)
      by (cbn; lia). now rewrite Hes. }
  refine (conj _ (conj eq_refl (conj eq_refl (conj _ _)))).
  - unfold add_cert_dbx, add_db_file, readable_file, link_source, source_of.
    cbn [calloc_dblist open_ strdup_dbfile strdup_basename fstat_ mmap_
         basename_ set_chain chain].
    rewrite Hlen. reflexivity.
  - intros ->. unfold check_db_hash, check_db.
    cbn [chain dbx check_chain source_of db_path db_datalen db_data].
    rewrite Hlen, !result_bind. cbn [say result snd].
    rewrite Hwalk. cbn [first_match fst snd].
    rewrite result_bind,
      (sha256_list_answer
         (mkctx (db ctx) (source_of name (sha256_list owner digest) :: dbx ctx)
            (pe_digest0 ctx) (pe_digest1 ctx))
         owner digest digest (mkSECItem null_ptr (wrap32 0)) Ho Hh Hd Hctx).
    replace (bytes_eqb digest digest) with true
      by (symmetry; now apply bytes_eqb_true).
    reflexivity.
  - intros Hne Hempty. unfold check_db_hash, check_db.
    cbn [chain dbx check_chain source_of db_path db_datalen db_data].
    rewrite Hempty, Hlen, !result_bind. cbn [say result snd check_chain].
    rewrite Hwalk. cbn [first_match fst snd].
    rewrite result_bind,
      (sha256_list_answer
         (mkctx (db ctx) [source_of name (sha256_list owner hash)]
            (pe_digest0 ctx) (pe_digest1 ctx))
         owner hash digest (mkSECItem null_ptr (wrap32 0)) Ho Hh Hd Hctx).
    destruct (bytes_eqb digest hash) eqn:E;
      [apply bytes_eqb_true in E; congruence | reflexivity].
Qed.

Lemma add_cert_dbx_then_check_db_hash_witness :
  length (zeros 16) = 16%nat /\
  length artifact_sha256 = 32%nat /\
  pe_digest0 (context_of [] []) = mkptr artifact_sha256 0 /\
  (1 < 2)%nat /\
  exists ctx',
    add_cert_dbx (readable_file "dbx" (sha256_list (zeros 16) artifact_sha256))
      (context_of [] []) "dbx"
    = ret (0, 0, ctx') /\
    (artifact_sha256 = artifact_sha256 ->
     result (check_db_hash 2 DBX ctx') = Ok FOUND).
Proof.
  assert (Ho : length (zeros 16) = 16%nat) by reflexivity.
  assert (Hh : length artifact_sha256 = 32%nat) by reflexivity.
  assert (Hc : pe_digest0 (context_of [] []) = mkptr artifact_sha256 0)
    by reflexivity.
  assert (Hf : (1 < 2)%nat) by lia.
  destruct (add_cert_dbx_then_check_db_hash "dbx" (zeros 16) artifact_sha256
              artifact_sha256 (context_of [] []) 2 Ho Hh Hh Hc Hf)
    as (ctx' & Hadd & _ & _ & Hfound & _).
  exact (conj Ho (conj Hh (conj Hc (conj Hf
           (ex_intro _ ctx' (conj Hadd Hfound)))))).
Defined.

(** ** Loading a certificate and verifying against it *)

(** X20.  Loading a certificate and searching with it.  After
    [add_cert_file] has loaded a bare certificate of more than 12 bytes
    into an empty allow chain, a search of that chain names the source
    and applies its predicate exactly once, to the entry whose payload
    is the certificate, whatever the predicate is.  With [check_cert]
    (every NSS call before the verification succeeding) the search
    prints the name of the source, the window report and, when the
    verifier rejects, one verification error, and answers FOUND with
    that entry exactly when the verifier accepts the signature at the
    evaluation time, and NOT_FOUND otherwise. *)
Theorem add_cert_file_then_check_db_cert os ctx filename fd cert nss fuel
  data_ datalen match_ cinfo cinfo2 content digest :
  loads os fd (len cert) cert ->
  calloc_data os = Done tt ->
  12 < len cert ->
  len cert + 44 < 2 ^ 32 ->
  db ctx = [] ->
  (1 < fuel)%nat ->
  reaches_verifier nss (snd (wrapped_entry cert)) (fst (wrapped_entry cert))
    (mkSECItem data_ (wrap32 datalen)) cinfo cinfo2 content digest ->
  exists ctx',
    add_cert_file os ctx filename = ret (0, 0, ctx') /\
    load_bytes (data (snd (wrapped_entry cert)))
      (len_ (snd (wrapped_entry cert))) = Some cert /\
    (forall check : checkfn,
       check_db fuel DB ctx' check data_ datalen match_
       = (say (Stdout (Searching DB (basename_ os))) ;;;
          found <- check ctx' (snd (wrapped_entry cert))
                     (fst (wrapped_entry cert))
                     (mkSECItem data_ (wrap32 datalen)) ;;
          match found with
          | FOUND =>
              ret (FOUND,
                   option_map (fun _ => snd (wrapped_entry cert)) match_)
          | NOT_FOUND => ret (NOT_FOUND, match_)
          end)) /\
    check_db_cert nss fuel DB ctx' data_ datalen match_
    = if SEC_PKCS7VerifyDetachedSignatureAtTime nss cinfo2 digest
           (evaluation_time (signing_window nss cinfo))
      then (Stdout (Searching DB (basename_ os))
            :: window_report (signing_window nss cinfo),
            Ok (FOUND,
                option_map (fun _ => snd (wrapped_entry cert)) match_))
      else (Stdout (Searching DB (basename_ os))
            :: window_report (signing_window nss cinfo)
            ++ [Stderr VerifyError],
            Ok (NOT_FOUND, match_)).
Proof.
  intros Hl Hcal H12 H32 Hempty Hfuel Hreach.
  pose proof (wrapped_certificate_well_formed cert H12 H32) as Hwf.
  pose proof (wrapped_group_entries cert H12 H32) as Hes.
  unfold sizeof_EFI_SIGNATURE_LIST, sizeof_efi_guid_t in Hwf.
  replace (len cert + 28 + 16) with (len cert + 44) in Hwf by lia.
  assert (Hone : forall check : checkfn,
    check_db fuel DB
      (set_chain DB
         (mkdblist DB_CERT fd (basename_ os) cert (len cert)
            (mkptr (wrapped_certificate cert) 0) (len cert + 44)
          :: chain DB ctx) ctx)
      check data_ datalen match_
    = (say (Stdout (Searching DB (basename_ os))) ;;;
       found <- check
                  (set_chain DB
                     (mkdblist DB_CERT fd (basename_ os) cert (len cert)
                        (mkptr (wrapped_certificate cert) 0)
                        (len cert + 44)
                      :: chain DB ctx) ctx)
                  (snd (wrapped_entry cert)) (fst (wrapped_entry cert))
                  (mkSECItem data_ (wrap32 datalen)) ;;
       match found with
       | FOUND =>
           ret (FOUND,
                option_map (fun _ => snd (wrapped_entry cert)) match_)
       | NOT_FOUND => ret (NOT_FOUND, match_)
       end)).
  { intros check. unfold check_db.
    cbn [chain set_chain db check_chain db_path db_datalen db_data].
    rewrite Hempty. cbn [check_chain].
    rewrite (check_lists_well_formed _ _ _ _ _ _ Hwf) by (cbn; lia).
    rewrite Hes. cbn [first_match].
    rewrite !bind_assoc. apply bind_ext. intros _. apply bind_ext.
    intros [|]; rewrite !bind_ret_l; reflexivity. }
  eexists. split; [| split; [| split]].
  - unfold add_cert_file.
    apply (add_db_file_builds_wrapped os ctx DB filename fd cert Hl Hcal).
    lia.
  - cbn [wrapped_entry snd data len_].
    unfold sizeof_EFI_SIGNATURE_LIST, offsetof_SignatureData.
    apply (load_bytes_mid _
             (efi_guid_x509_cert ++ le32 (len cert + 28 + 16) ++ le32 0
              ++ le32 (len cert + 16) ++ repeat x00 16) cert []).
    + unfold wrapped_certificate, sizeof_EFI_SIGNATURE_LIST,
        sizeof_efi_guid_t.
      rewrite app_nil_r, <- !app_assoc. reflexivity.
    + reflexivity.
    + reflexivity.
  - exact Hone.
  - unfold check_db_cert. rewrite Hone.
    rewrite (check_cert_reaches_verifier _ _ _ _ _ _ _ _ _ Hreach).
    cbv zeta.
    destruct (SEC_PKCS7VerifyDetachedSignatureAtTime nss cinfo2 digest _);
      cbn [say bind ret]; rewrite ?app_nil_r; reflexivity.
Qed.

Lemma add_cert_file_then_check_db_cert_witness :
  loads (readable_file "cert.der" sample_certificate) 3
    (len sample_certificate) sample_certificate /\
  12 < len sample_certificate /\
  exists ctx',
    add_cert_file (readable_file "cert.der" sample_certificate)
      (context_of [] []) "cert.der"
    = ret (0, 0, ctx') /\
    check_db_cert
      (sample_nss (sample_cinfo 1 None) [valid_between 10 50] true
         (Z.eqb 30))
      2 DB ctx' null_ptr 0 None
    = ([Stdout (Searching DB "cert.der")], Ok (FOUND, None)).
Proof.
  assert (Hl : loads (readable_file "cert.der" sample_certificate) 3
                 (len sample_certificate) sample_certificate)
    by (repeat split; left; reflexivity).
  assert (H12 : 12 < len sample_certificate)
    by (change (len sample_certificate) with 20; lia).
  assert (H32 : len sample_certificate + 44 < 2 ^ 32)
    by (change (len sample_certificate) with 20; lia).
  assert (Hf : (1 < 2)%nat) by lia.
  assert (Hr : reaches_verifier
                 (sample_nss (sample_cinfo 1 None) [valid_between 10 50]
                    true (Z.eqb 30))
                 (snd (wrapped_entry sample_certificate))
                 (fst (wrapped_entry sample_certificate))
                 (mkSECItem null_ptr (wrap32 0)) (sample_cinfo 1 None)
                 (sample_cinfo 1 None) (mkSECItem (mkptr [x30; x00] 0) 2)
                 (repeat x00 32))
    by (repeat split; vm_compute; reflexivity).
  destruct (add_cert_file_then_check_db_cert
              (readable_file "cert.der" sample_certificate)
              (context_of [] []) "cert.der" 3 sample_certificate
              (sample_nss (sample_cinfo 1 None) [valid_between 10 50] true
                 (Z.eqb 30))
              2 null_ptr 0 None (sample_cinfo 1 None) (sample_cinfo 1 None)
              (mkSECItem (mkptr [x30; x00] 0) 2) (repeat x00 32)
              Hl eq_refl H12 H32 eq_refl Hf Hr)
    as (ctx' & Hadd & _ & _ & Hres).
  refine (conj Hl (conj H12 (ex_intro _ ctx' (conj Hadd _)))).
  rewrite Hres. reflexivity.
Defined.
